(** * RestockOnBags: the trade logger and refund loop of [Restockv1.js]

    A shallow embedding of the script's ledger store, rate-limited owner
    resolver, refund cycle and feed handler, and the properties of them
    that the design document states.

    Conventions of the embedding.
    - JavaScript numbers are IEEE binary64 values ([float]); times read
      from [Date.now()] are integers ([Z], milliseconds).
    - Module-level variables of the script ([workbook], [uniqueWallets],
      [requestCount], [lastResetTime]) are fields of [World], together
      with the two pieces of the environment the script observes: the
      contents of [trades.xlsx] and the wall clock.
    - A function of the script is a computation [Prog A]: it takes the
      world, and yields a completion (a value, a thrown exception, or fuel
      exhaustion for the one unbounded recursion), the world afterwards and
      the effects it performed, in order.
    - What the outside answers (RPC results, whether a file write succeeds,
      timer lateness) is an explicit argument of the function that asks. *)

From Stdlib Require Import ZArith Floats Lia.
From stdpp Require Import gmap strings list fin_maps.

#[local] Set Warnings "-register-all".
#[local] Open Scope string_scope.
#[local] Open Scope list_scope.

(** ** JavaScript values *)

Inductive Prim : Type :=
| PUndefined
| PNull
| PBool (b : bool)
| PNum (x : float)
| PStr (s : string).

Inductive JsVal : Type :=
| JPrim (p : Prim)
| JArr (elems : list JsVal)
| JObj (props : gmap string JsVal).

Coercion JPrim : Prim >-> JsVal.

Inductive Exn : Type :=
| TypeError          (* property read on undefined/null, call of a non-function *)
| SyntaxError        (* JSON.parse *)
| IoError            (* XLSX.writeFileSync *)
| InvalidPublicKey   (* new PublicKey(..) *)
| RpcError           (* a rejected RPC promise *)
| TransferError.     (* building, sending or confirming the transfer *)

Inductive Completion (A : Type) : Type :=
| Normal (a : A)
| Throw (e : Exn)
| OutOfFuel.

Arguments Normal {A} a.
Arguments Throw {A} e.
Arguments OutOfFuel {A}.

(** A row of the sheet, as [sheet_to_json] hands it out: column name to
    cell value. *)
Abbreviation Row := (gmap string Prim).

(** The data rows of the "Trades" sheet under the header; [None] is a
    blank row. *)
Abbreviation Sheet := (list (option Row)).

Module Js.

Definition nullish (v : JsVal) : bool :=
  match v with
  | JPrim PUndefined | JPrim PNull => true
  | _ => false
  end.

(** [o.k] on data that came out of [JSON.parse].  None of the property
    names the script reads is a built-in property of a string, number,
    boolean or array, so on those the read yields [undefined]. *)
Definition get (o : JsVal) (k : string) : Completion JsVal :=
  match o with
  | JPrim PUndefined | JPrim PNull => Throw TypeError
  | JObj props => Normal (default (JPrim PUndefined) (props !! k))
  | _ => Normal (JPrim PUndefined)
  end.

(** [o?.k] *)
Definition get_opt (o : JsVal) (k : string) : JsVal :=
  match o with
  | JObj props => default (JPrim PUndefined) (props !! k)
  | _ => JPrim PUndefined
  end.

Definition truthy (v : JsVal) : bool :=
  match v with
  | JPrim PUndefined | JPrim PNull => false
  | JPrim (PBool b) => b
  | JPrim (PNum x) => negb (PrimFloat.is_zero x || PrimFloat.is_nan x)
  | JPrim (PStr s) => negb (String.eqb s EmptyString)
  | JArr _ | JObj _ => true
  end.

(** [a === b] on cell values. *)
Definition strict_eq (a b : Prim) : bool :=
  match a, b with
  | PUndefined, PUndefined => true
  | PNull, PNull => true
  | PBool x, PBool y => Bool.eqb x y
  | PNum x, PNum y => PrimFloat.eqb x y
  | PStr x, PStr y => String.eqb x y
  | _, _ => false
  end.

(** SameValueZero, the comparison of [Set.prototype.has] and
    [Array.prototype.includes].  Arrays and objects compare by
    reference; every array or object the script handles is freshly
    produced by [JSON.parse], so it is equal to nothing retained. *)
Definition same_value_zero (a b : JsVal) : bool :=
  match a, b with
  | JPrim (PNum x), JPrim (PNum y) =>
      PrimFloat.eqb x y || (PrimFloat.is_nan x && PrimFloat.is_nan y)
  | JPrim p, JPrim q => strict_eq p q
  | _, _ => false
  end.

(** [v === s] for a string constant [s]. *)
Definition is_string (v : JsVal) (s : string) : bool :=
  match v with
  | JPrim (PStr x) => String.eqb x s
  | _ => false
  end.

(** A [Set], in insertion order. *)
Definition set_has (s : list JsVal) (v : JsVal) : bool :=
  existsb (same_value_zero v) s.

Definition set_add (s : list JsVal) (v : JsVal) : list JsVal :=
  if set_has s v then s else s ++ [v].

Definition includes (a : list string) (v : JsVal) : bool :=
  existsb (fun s => same_value_zero (JPrim (PStr s)) v) a.

(** [a[i] = v] on an array that may have holes: in range it overwrites,
    past the end it extends the array, leaving holes in between. *)
Definition array_set {A : Type} (a : list (option A)) (i : nat) (v : A)
  : list (option A) :=
  if decide (i < length a) then <[i := Some v]> a
  else a ++ replicate (i - length a) None ++ [Some v].

(** [a[i]]: [undefined] for a hole and out of range. *)
Definition array_get {A : Type} (a : list (option A)) (i : nat) : option A :=
  mjoin (a !! i).

(** [{...o}] where [o] may be [undefined]. *)
Definition spread (o : option Row) : Row := default ∅ o.

(** A property read on a row: [undefined] when the column is absent. *)
Definition field (r : Row) (k : string) : Prim := default PUndefined (r !! k).

(** [v === x] for a number constant [x]. *)
Definition is_number (v : JsVal) (x : float) : bool :=
  match v with
  | JPrim (PNum y) => PrimFloat.eqb y x
  | _ => false
  end.

(** Sequencing of sub-expressions that may throw. *)
Definition and_then {A B} (c : Completion A) (k : A -> Completion B)
  : Completion B :=
  match c with
  | Normal a => k a
  | Throw e => Throw e
  | OutOfFuel => OutOfFuel
  end.

(** [`${v}`] for its exception.  A template literal converts the value to
    a string.  On a value out of [JSON.parse] the conversion fails, with a
    TypeError, exactly when the value is an object with a member named
    [toString], which hides the method and cannot be called, or an array
    that holds such a value: [join] converts the elements in turn. *)
Fixpoint printable (v : JsVal) : bool :=
  match v with
  | JPrim _ => true
  | JArr elems => forallb printable elems
  | JObj props => bool_decide (props !! "toString" = None)
  end.

Definition to_string (v : JsVal) : Completion unit :=
  if printable v then Normal tt else Throw TypeError.

(** [v.length], as far as its conversion to a string goes: a string and
    an array have a number there, which converts as every primitive does;
    an object has what its member [length] holds. *)
Definition length_of (v : JsVal) : JsVal :=
  match v with
  | JObj props => default (JPrim PUndefined) (props !! "length")
  | _ => JPrim PUndefined
  end.

End Js.

(** ** Constants of the script *)

Definition TARGET_MINT_ADDRESS : string :=
  "FU9etYuLtzANF59y5oNoByLge3raMEUn7EC56LkuBAGS".

Definition SOL_MINT_ADDRESSES : list string :=
  [ "So11111111111111111111111111111111111111111";
    "So11111111111111111111111111111111111111112" ].

Definition RATE_LIMIT_PER_SECOND : Z := 9.
Definition RATE_LIMIT_INTERVAL : Z := 1000.
Definition MAX_WRITE_RETRIES : nat := 3.

Definition TOKEN_PROGRAM_IDS : list string :=
  [ "TokenkegQfeZyiNwAJbNbGKPFXCWuBvf9Ss623VQ5DA";
    "TokenzQdBNbLqP5VEhdkAS6EPFLC1PHnBqCXEpPxuEb" ].

(** ** The world and its effects *)

Record RateLimiter : Type := mkLimiter {
  requestCount : Z;
  lastResetTime : Z
}.

Record World : Type := mkWorld {
  workbook : Sheet;             (* workbook.Sheets["Trades"] *)
  uniqueWallets : list JsVal;   (* the Set of buyers already logged *)
  limiter : RateLimiter;        (* requestCount, lastResetTime *)
  file : option Sheet;          (* trades.xlsx as last written; None: no file *)
  clock : Z                     (* what Date.now() reads *)
}.

Inductive Level : Type := Log | Warn | Error.

Inductive Msg : Type :=
| NoAccountInfo (ata : Prim)
| ResolvedOwner (ata : Prim) (owner : string)
| NotTokenAccount (ata : Prim) (owner : string)
| ResolveFailed (ata : Prim)
| InitializedFile
| InitializeFailed
| AppendedTrade (ata solAmount : JsVal)
| WriteFailed (attempt : nat)
| WriteGaveUp
| UpdatedRow (row : nat) (updates : Row)
| UpdateFailed (attempt : nat)
| UpdateGaveUp
| RefundsDisabled
| CheckingRefunds
| TreasuryBalance (sol : float)
| OwnerUnresolved (ata : Prim) (row : nat)
| Refunded (sol : float) (owner : Prim) (signature link : string)
| StatusNotUpdated (ata : Prim)
| RefundSendFailed (owner : Prim) (ata : Prim)
| InsufficientBalance (treasury sol : float) (ata : Prim) (required : float)
| NoMorePending
| ConnectionAcknowledged
| SubscriptionSent (id : string)
| RawData (querySource : string) (data : JsVal)
| ReceivedTrades (querySource : string)
| TradeSeen (index : nat) (querySource : string)
    (buyer buyMint sellMint sol time : JsVal)
| LoggedTrade (querySource : string) (buyer sol : JsVal)
| SkippedAlreadyLogged (index : nat) (querySource : string) (buyer : JsVal)
| SkippedNoSol (index : nat) (querySource : string) (sellMint : JsVal)
| SkippedOtherMint (index : nat) (querySource : string) (buyMint : JsVal)
| KeepAlive
| ErrorMessage (errors : JsVal)
| UnhandledType (type : JsVal).

Inductive Effect : Type :=
| Console (lvl : Level) (m : Msg)
| FileWrite (ws : Sheet) (ok : bool)   (* one XLSX.writeFileSync attempt *)
| AtomicsWait (ms : Z)                 (* the blocking pause between attempts *)
| SetTimeout (ms : Z)                  (* an awaited timer *)
| GetAccountInfo (ata : Prim)          (* RPC *)
| GetBalance                           (* RPC *)
| SendAndConfirm (to : Prim) (sol : float)
    (* a transfer of Math.floor(sol * 1e9) lamports handed to the cluster *)
| SocketSend (id : string).            (* a subscription start message *)

(** ** Computations *)

Definition Run (A : Type) : Type := Completion A * World * list Effect.

Definition Prog (A : Type) : Type := World -> Run A.

Definition completion {A} (r : Run A) : Completion A := r.1.1.
Definition world_after {A} (r : Run A) : World := r.1.2.
Definition effects {A} (r : Run A) : list Effect := r.2.

Definition ret {A} (a : A) : Prog A := fun w => (Normal a, w, []).

Definition throw {A} (e : Exn) : Prog A := fun w => (Throw e, w, []).

Definition bind {A B} (m : Prog A) (k : A -> Prog B) : Prog B := fun w =>
  match m w with
  | (Normal a, w1, e1) =>
      match k a w1 with
      | (r, w2, e2) => (r, w2, e1 ++ e2)
      end
  | (Throw e, w1, e1) => (Throw e, w1, e1)
  | (OutOfFuel, w1, e1) => (OutOfFuel, w1, e1)
  end.

(** [try { m } catch (err) { h err }] *)
Definition try_catch {A} (m : Prog A) (h : Exn -> Prog A) : Prog A := fun w =>
  match m w with
  | (Throw e, w1, e1) =>
      match h e w1 with
      | (r, w2, e2) => (r, w2, e1 ++ e2)
      end
  | other => other
  end.

Declare Scope prog_scope.
Delimit Scope prog_scope with prog.
Notation "x <- m ;; k" := (bind m (fun x => k))
  (at level 20, m at level 99, k at level 200, only parsing) : prog_scope.
Notation "m ;; k" := (bind m (fun _ => k))
  (at level 100, k at level 200, only parsing, right associativity) : prog_scope.
#[local] Open Scope prog_scope.

(** The completion of a pure sub-expression, evaluated in place. *)
Definition lift {A} (c : Completion A) : Prog A := fun w => (c, w, []).

Definition emit (e : Effect) : Prog unit := fun w => (Normal tt, w, [e]).

Definition console (lvl : Level) (m : Msg) : Prog unit := emit (Console lvl m).

Definition read {A} (f : World -> A) : Prog A := fun w => (Normal (f w), w, []).

Definition modify (f : World -> World) : Prog unit := fun w => (Normal tt, f w, []).

Definition set_workbook (ws : Sheet) (w : World) : World :=
  mkWorld ws (uniqueWallets w) (limiter w) (file w) (clock w).

Definition set_uniqueWallets (s : list JsVal) (w : World) : World :=
  mkWorld (workbook w) s (limiter w) (file w) (clock w).

Definition set_limiter (l : RateLimiter) (w : World) : World :=
  mkWorld (workbook w) (uniqueWallets w) l (file w) (clock w).

Definition set_file (f : option Sheet) (w : World) : World :=
  mkWorld (workbook w) (uniqueWallets w) (limiter w) f (clock w).

(** Time passing while the script blocks or awaits. *)
Definition elapse (ms : Z) (w : World) : World :=
  mkWorld (workbook w) (uniqueWallets w) (limiter w) (file w) (clock w + Z.max 0 ms).

(** ** LedgerStore: the "Trades" sheet *)

(** SheetJS is outside the script.  The sheet is modelled as holding the
    rows it was built from, at their positions; reading it back with
    [sheet_to_json] yields the rows in order and skips blank ones, which
    is the library's default when rows are read as objects.  A row is
    blank when it has no value: a hole of the array, a row without
    members, and a row all of whose members are [undefined] or [null]. *)
Definition json_to_sheet (js : list (option Row)) : Sheet := js.

Definition nullish_cell (p : Prim) : bool :=
  match p with
  | PUndefined | PNull => true
  | _ => false
  end.

Definition blank (r : Row) : bool :=
  forallb (fun kv : string * Prim => nullish_cell kv.2) (map_to_list r).

Definition sheet_to_json (ws : Sheet) : list Row :=
  List.filter (fun r => negb (blank r)) (omap id ws).

(** A value that the sheet stores as the value of a cell.  [json_to_sheet]
    makes a cell of a primitive, and takes an array or an object for a
    cell that the caller has built.  An array, and an object without a
    member [t], is then a cell without a type, which reads back as
    absent.  An object with a member [t] claims a type of its own, and
    what reads back is the library's business ([sheet_to_json] throws on
    a type it does not know); [to_cell] says nothing about it, and the
    sheets described here hold no such cell. *)
Definition storable (v : JsVal) : bool :=
  match v with
  | JObj props => bool_decide (props !! "t" = None)
  | _ => true
  end.

(** What reads back from the cell made of a storable value. *)
Definition to_cell (v : JsVal) : Prim :=
  match v with
  | JPrim p => p
  | _ => PUndefined
  end.

(** [XLSX.writeFileSync(workbook, OUTPUT_FILE)]; [ok] tells whether the
    file system accepts this attempt.  A refused attempt throws and
    leaves the file as it was.  [file] records the sheet that was last
    written; how the library encodes it on disk is not described. *)
Definition writeFileSync (ok : bool) : Prog unit := fun w =>
  if ok then (Normal tt, set_file (Some (workbook w)) w, [FileWrite (workbook w) true])
  else (Throw IoError, w, [FileWrite (workbook w) false]).

Definition Atomics_wait (ms : Z) : Prog unit := fun w =>
  (Normal tt, elapse ms w, [AtomicsWait ms]).

(** The retry loop that ends [appendTradeToExcel] and [updateExcelRow]:
    [for (let retries = 0; retries < MAX_WRITE_RETRIES; retries++)].
    [n] counts the iterations left; [wr k] tells whether attempt [k]
    succeeds.  Falling out of the loop returns [undefined]. *)
Fixpoint persist (done failed gaveUp : nat -> Msg) (wr : nat -> bool)
    (n retries : nat) : Prog Prim :=
  match n with
  | 0 => ret PUndefined
  | S n' =>
      r <- try_catch
             (writeFileSync (wr retries) ;;
              console Log (done retries) ;;
              ret (Some (PBool true)))
             (fun _ =>
                console Error (failed (retries + 1)) ;;
                if (retries =? MAX_WRITE_RETRIES - 1)%nat then
                  console Error (gaveUp retries) ;;
                  ret (Some (PBool false))
                else
                  Atomics_wait 1000 ;;
                  ret None) ;;
      match r with
      | Some v => ret v
      | None => persist done failed gaveUp wr n' (S retries)
      end
  end.

(** The record that [trades.push] adds: pending, with an empty link. *)
Definition new_trade (ata solAmount : JsVal) : Row :=
  {[ "ATA" := to_cell ata;
     "sol_buy_amount" := to_cell solAmount;
     "status" := PNum 0;
     "solscan_link" := PStr EmptyString ]}.

Definition appendTradeToExcel (wr : nat -> bool) (ata solAmount : JsVal)
  : Prog Prim :=
  ws <- read workbook ;;
  let trades := sheet_to_json ws in
  let trades := trades ++ [new_trade ata solAmount] in
  let newWs := json_to_sheet (Some <$> trades) in
  modify (set_workbook newWs) ;;
  persist (fun _ => AppendedTrade ata solAmount)
          WriteFailed (fun _ => WriteGaveUp) wr MAX_WRITE_RETRIES 0.

Definition updateExcelRow (wr : nat -> bool) (index : nat) (updates : Row)
  : Prog Prim :=
  ws <- read workbook ;;
  let trades := Some <$> sheet_to_json ws in
  let trades :=
    Js.array_set trades index (updates ∪ Js.spread (Js.array_get trades index)) in
  let newWs := json_to_sheet trades in
  modify (set_workbook newWs) ;;
  persist (fun _ => UpdatedRow (index + 1) updates)
          UpdateFailed (fun _ => UpdateGaveUp) wr MAX_WRITE_RETRIES 0.

(** The ledger as the script reads it. *)
Definition ledger (w : World) : list Row := sheet_to_json (workbook w).

(** ** RateLimiter *)

(** The head of [rateLimitedGetOwnerWallet], from [const now = Date.now()]
    to [requestCount++]: one pass over the gate at time [now].  [None]:
    the caller is admitted and counted.  [Some ms]: the window is full and
    the caller must sleep [ms] before it calls again. *)
Definition acquire (now : Z) (l : RateLimiter) : RateLimiter * option Z :=
  let l :=
    if (RATE_LIMIT_INTERVAL <=? now - lastResetTime l)%Z
    then mkLimiter 0 now
    else l in
  if (RATE_LIMIT_PER_SECOND <=? requestCount l)%Z
  then (l, Some (RATE_LIMIT_INTERVAL - (now - lastResetTime l))%Z)
  else (mkLimiter (requestCount l + 1) (lastResetTime l), None).

Definition admitted (wait : option Z) : bool :=
  match wait with
  | None => true
  | Some _ => false
  end.

(** An execution of the limiter: passes over the gate at the times [nows],
    whoever makes them.  Each entry records the time of the pass, whether
    the caller was admitted, and the limiter afterwards. *)
Fixpoint passes (l : RateLimiter) (nows : list Z)
  : list (Z * bool * RateLimiter) :=
  match nows with
  | [] => []
  | now :: rest =>
      (now, admitted (acquire now l).2, (acquire now l).1)
        :: passes (acquire now l).1 rest
  end.

(** The times at which an acquisition completed. *)
Fixpoint acquisitions (tr : list (Z * bool * RateLimiter)) : list Z :=
  match tr with
  | [] => []
  | (now, true, _) :: rest => now :: acquisitions rest
  | (_, false, _) :: rest => acquisitions rest
  end.

(** The values [lastResetTime] takes in an execution that starts from [l]. *)
Definition window_starts (l : RateLimiter) (tr : list (Z * bool * RateLimiter))
  : list Z :=
  lastResetTime l :: map (fun e : Z * bool * RateLimiter => lastResetTime e.2) tr.

(** How many of the times [ts] fall in the span [[from, from + len)]. *)
Fixpoint count_in (from len : Z) (ts : list Z) : nat :=
  match ts with
  | [] => 0
  | t :: rest =>
      (if (from <=? t)%Z && (t <? from + len)%Z then 1 else 0)
      + count_in from len rest
  end.

(** Clock readings never go back. *)
Fixpoint nondecreasing (lo : Z) (ts : list Z) : Prop :=
  match ts with
  | [] => True
  | t :: rest => (lo <= t)%Z /\ nondecreasing t rest
  end.

(** ** What lies outside the script *)

(** Configuration and library functions whose code is not the script's. *)
Class Host : Type := {
  (* config.enableRefunds, false when absent *)
  ENABLE_REFUNDS : bool;
  (* whether [new PublicKey(x)] accepts [x] *)
  PublicKey_valid : Prim -> bool;
  (* [new PublicKey(bytes).toString()]; [None] when the constructor throws *)
  PublicKey_of_bytes : list Byte.byte -> option string;
  (* whether a transfer instruction of [Math.floor(sol * 1e9)] lamports can
     be built *)
  transfer_encodable : float -> bool;
  (* [parseFloat] on a string *)
  parseFloat_string : string -> float;
  (* ToNumber on a string, an array or an object *)
  ToNumber_parsed : JsVal -> float
}.

Inductive Rpc (A : Type) : Type :=
| Resolves (a : A)
| Rejects.

Arguments Resolves {A} a.
Arguments Rejects {A}.

Record AccountInfo : Type := mkAccountInfo {
  owner : string;            (* accountInfo.owner.toString() *)
  data : list Byte.byte
}.

(** What the outside answers to one call of the resolver. *)
Record ResolverEnv : Type := mkResolverEnv {
  timer_late : nat;                       (* how late an awaited timer fires *)
  accountInfo : Rpc (option AccountInfo); (* solanaConnection.getAccountInfo *)
  accountInfo_latency : nat
}.

(** What the outside answers during one refund cycle. *)
Record RefundEnv : Type := mkRefundEnv {
  balance : Rpc float;                    (* getBalance, in lamports *)
  balance_latency : nat;
  resolver : ResolverEnv;
  confirmation : Rpc string;              (* sendAndConfirmTransaction *)
  confirmation_latency : nat;
  update_writes : nat -> bool             (* write attempts of updateExcelRow *)
}.

(** What a feed message is to [JSON.parse]. *)
Inductive WireData : Type :=
| Unparsable
| Json (v : JsVal).

Definition JSON_parse (d : WireData) : Completion JsVal :=
  match d with
  | Unparsable => Throw SyntaxError
  | Json v => Normal v
  end.

(** The values the [forEach] callback reads out of one trade. *)
Record TradeFields : Type := mkTradeFields {
  buyerAddress : JsVal;    (* trade.Trade.Buy.Account.Address *)
  sellCurrency : JsVal;    (* trade.Trade.Sell.Currency.MintAddress *)
  solAmount : JsVal;       (* trade.Trade.Sell.Amount, or 0 *)
  buyMint : JsVal;         (* trade.Trade.Buy.Currency.MintAddress *)
  blockTime : JsVal        (* trade.Block.Time *)
}.

Notation "x <~ c ;; k" := (Js.and_then c (fun x => k))
  (at level 20, c at level 99, k at level 200, only parsing) : prog_scope.

(** The property reads of the callback and the conversions to strings
    that its first log line makes, in the order the script makes them; a
    read on [undefined] or [null] throws, and so does the conversion of a
    value that is not [Js.printable].  Nothing else in the callback can
    throw on values that got this far: [>] converts its operand by the
    same methods. *)
Definition trade_fields (trade : JsVal) : Completion TradeFields :=
  t <~ Js.get trade "Trade" ;;
  buy <~ Js.get t "Buy" ;;
  t <~ Js.get trade "Trade" ;;
  sell <~ Js.get t "Sell" ;;
  account <~ Js.get buy "Account" ;;
  buyerAddress <~ Js.get account "Address" ;;
  currency <~ Js.get sell "Currency" ;;
  sellCurrency <~ Js.get currency "MintAddress" ;;
  solAmount <~ (if Js.includes SOL_MINT_ADDRESSES sellCurrency
                then Js.get sell "Amount"
                else Normal (JPrim (PNum 0))) ;;
  currency <~ Js.get buy "Currency" ;;
  buyMint <~ Js.get currency "MintAddress" ;;
  _ <~ Js.to_string buyerAddress ;;
  _ <~ Js.to_string buyMint ;;
  _ <~ Js.to_string sellCurrency ;;
  _ <~ Js.to_string solAmount ;;
  block <~ Js.get trade "Block" ;;
  time <~ Js.get block "Time" ;;
  _ <~ Js.to_string time ;;
  Normal (mkTradeFields buyerAddress sellCurrency solAmount buyMint time).

Section Script.

Context `{Host}.

(** [parseFloat] on a cell value.  A number is turned into its string and
    read back, which returns it, negative zero as zero; [undefined],
    [null] and the booleans read as [NaN]. *)
Definition parseFloat (v : Prim) : float :=
  match v with
  | PNum x => if PrimFloat.is_zero x then 0%float else x
  | PStr s => parseFloat_string s
  | _ => nan
  end.

(** The conversion that [>] applies to its operand. *)
Definition ToNumber (v : JsVal) : float :=
  match v with
  | JPrim PUndefined => nan
  | JPrim PNull => 0%float
  | JPrim (PBool b) => if b then 1%float else 0%float
  | JPrim (PNum x) => x
  | _ => ToNumber_parsed v
  end.

(** [new PublicKey(x)] for its exception; the key itself is not used. *)
Definition new_PublicKey (x : Prim) : Prog unit :=
  if PublicKey_valid x then ret tt else throw InvalidPublicKey.

(** [await new Promise(resolve => setTimeout(resolve, ms))] *)
Definition sleep (late : nat) (ms : Z) : Prog unit := fun w =>
  (Normal tt, elapse (Z.max 0 ms + Z.of_nat late) w, [SetTimeout ms]).

(** An awaited RPC: the request goes out, time passes, and the promise
    resolves or rejects. *)
Definition await_rpc {A} (request : Effect) (latency : nat) (answer : Rpc A)
  : Prog A := fun w =>
  (match answer with Resolves a => Normal a | Rejects => Throw RpcError end,
   elapse (Z.of_nat latency) w, [request]).

(** ** AddressResolver *)

(** The [try]/[catch] of [rateLimitedGetOwnerWallet], entered once a
    slot is taken. *)
Definition fetch_owner (env : ResolverEnv) (ataAddress : Prim) : Prog Prim :=
  try_catch
    (new_PublicKey ataAddress ;;
     info <- await_rpc (GetAccountInfo ataAddress)
               (accountInfo_latency env) (accountInfo env) ;;
     match info with
     | None =>
         console Warn (NoAccountInfo ataAddress) ;;
         ret ataAddress
     | Some info =>
         if Js.includes TOKEN_PROGRAM_IDS (PStr (owner info)) then
           match PublicKey_of_bytes (take 32 (drop 32 (data info))) with
           | Some ownerPublicKey =>
               console Log (ResolvedOwner ataAddress ownerPublicKey) ;;
               ret (PStr ownerPublicKey)
           | None => throw InvalidPublicKey
           end
         else
           console Warn (NotTokenAccount ataAddress (owner info)) ;;
           ret ataAddress
     end)
    (fun _ =>
       console Error (ResolveFailed ataAddress) ;;
       ret ataAddress).

(** What the resolver hands back, read off the answers of the outside. *)
Definition resolution (env : ResolverEnv) (ataAddress : Prim) : Prim :=
  if PublicKey_valid ataAddress then
    match accountInfo env with
    | Resolves (Some info) =>
        if Js.includes TOKEN_PROGRAM_IDS (PStr (owner info)) then
          match PublicKey_of_bytes (take 32 (drop 32 (data info))) with
          | Some ownerPublicKey => PStr ownerPublicKey
          | None => ataAddress
          end
        else ataAddress
    | _ => ataAddress
    end
  else ataAddress.

(** The recursion of the script is unbounded; [fuel] bounds the number
    of calls, and [OutOfFuel] tells that the bound was hit. *)
Fixpoint rateLimitedGetOwnerWallet (fuel : nat) (env : ResolverEnv)
    (ataAddress : Prim) : Prog Prim :=
  match fuel with
  | 0 => lift OutOfFuel
  | S fuel' =>
      now <- read clock ;;
      l <- read limiter ;;
      let '(l', wait) := acquire now l in
      modify (set_limiter l') ;;
      match wait with
      | Some ms =>
          sleep (timer_late env) ms ;;
          rateLimitedGetOwnerWallet fuel' env ataAddress
      | None => fetch_owner env ataAddress
      end
  end.

(** ** RefundEngine *)

(** [const requiredBalance = 2 + 2 * solBuyAmount] *)
Definition requiredBalance (solBuyAmount : float) : float :=
  (2 + 2 * solBuyAmount)%float.

(** [{ status: 1, solscan_link: solscanLink }] *)
Definition refund_update (solscanLink : string) : Row :=
  {[ "status" := PNum 1; "solscan_link" := PStr solscanLink ]}.

(** [trades[i].status !== 0] fails: the row is still to be refunded. *)
Definition pending (row : Row) : bool :=
  Js.strict_eq (Js.field row "status") (PNum 0).

(** The body of the [for] loop of [processRefunds] for a pending row at
    index [i]; every path through it returns from the function. *)
Definition refund_row (fuel : nat) (env : RefundEnv) (treasuryBalance : float)
    (i : nat) (row : Row) : Prog unit :=
  let ata := Js.field row "ATA" in
  let solBuyAmount := parseFloat (Js.field row "sol_buy_amount") in
  if (requiredBalance solBuyAmount <=? treasuryBalance)%float then
    ownerWallet <- rateLimitedGetOwnerWallet fuel (resolver env) ata ;;
    if Js.strict_eq ownerWallet ata then
      console Warn (OwnerUnresolved ata (i + 1))
    else
      try_catch
        (new_PublicKey ownerWallet ;;
         (if transfer_encodable solBuyAmount then ret tt
          else throw TransferError) ;;
         signature <- await_rpc (SendAndConfirm ownerWallet solBuyAmount)
                        (confirmation_latency env) (confirmation env) ;;
         let solscanLink := String.append "https://solscan.io/tx/" signature in
         console Log (Refunded solBuyAmount ownerWallet signature solscanLink) ;;
         updated <- updateExcelRow (update_writes env) i
                      (refund_update solscanLink) ;;
         if negb (Js.truthy updated) then
           console Error (StatusNotUpdated ata)
         else ret tt)
        (fun _ => console Error (RefundSendFailed ownerWallet ata))
  else
    console Log (InsufficientBalance treasuryBalance solBuyAmount ata
                   (requiredBalance solBuyAmount)).

(** The [for] loop of [processRefunds], at index [i] with the rows from
    [i] on still to visit. *)
Fixpoint refund_scan (fuel : nat) (env : RefundEnv) (treasuryBalance : float)
    (rest : list Row) (i : nat) : Prog unit :=
  match rest with
  | [] => console Log NoMorePending
  | row :: rest' =>
      if negb (pending row) then
        refund_scan fuel env treasuryBalance rest' (S i)
      else
        refund_row fuel env treasuryBalance i row
  end.

(** One refund cycle, on its own: it reads the ledger once, and no message
    is handled and no other cycle runs while it awaits.  What a cycle does
    when it is overtaken is with [step_settle] below.  With refunds enabled
    the script does not get here unless the treasury key was read at
    start-up, so building the treasury's [PublicKey] does not throw; a
    rejected [getBalance] rejects the cycle. *)
Definition processRefunds (fuel : nat) (env : RefundEnv) : Prog unit :=
  if negb ENABLE_REFUNDS then
    console Log RefundsDisabled
  else
    console Log CheckingRefunds ;;
    ws <- read workbook ;;
    let trades := sheet_to_json ws in
    treasuryBalanceLamports <- await_rpc GetBalance (balance_latency env) (balance env) ;;
    let treasuryBalance := (treasuryBalanceLamports / 1e9)%float in
    console Log (TreasuryBalance treasuryBalance) ;;
    refund_scan fuel env treasuryBalance trades 0.

(** ** StreamConsumer *)

(** [solAmount > 0] *)
Definition gt_zero (v : JsVal) : bool := (0 <? ToNumber v)%float.

Definition wallet_logged (v : JsVal) : Prog bool :=
  read (fun w => Js.set_has (uniqueWallets w) v).

(** The callback of [trades.forEach] in the "data" case. *)
Definition onTrade (wr : nat -> bool) (querySource : string) (index : nat)
    (trade : JsVal) : Prog unit :=
  f <- lift (trade_fields trade) ;;
  console Log (TradeSeen (index + 1) querySource (buyerAddress f) (buyMint f)
                 (sellCurrency f) (solAmount f) (blockTime f)) ;;
  if negb (Js.truthy (PStr TARGET_MINT_ADDRESS))
     || Js.is_string (buyMint f) TARGET_MINT_ADDRESS then
    logged <- wallet_logged (buyerAddress f) ;;
    if negb logged && gt_zero (solAmount f) then
      modify (fun w =>
        set_uniqueWallets (Js.set_add (uniqueWallets w) (buyerAddress f)) w) ;;
      appended <- appendTradeToExcel wr (buyerAddress f) (solAmount f) ;;
      if Js.truthy appended then
        console Log (LoggedTrade querySource (buyerAddress f) (solAmount f))
      else ret tt
    else
      logged <- wallet_logged (buyerAddress f) ;;
      if logged then
        console Log (SkippedAlreadyLogged (index + 1) querySource (buyerAddress f))
      else if Js.is_number (solAmount f) 0 then
        console Log (SkippedNoSol (index + 1) querySource (sellCurrency f))
      else ret tt
  else
    console Log (SkippedOtherMint (index + 1) querySource (buyMint f)).

(** The trade passes the three tests of the callback. *)
Definition accepted (f : TradeFields) (w : World) : bool :=
  Js.is_string (buyMint f) TARGET_MINT_ADDRESS
  && negb (Js.set_has (uniqueWallets w) (buyerAddress f))
  && gt_zero (solAmount f).

(** [trades.forEach(..)]; [wrs k] answers the write attempts made for the
    trade at index [k]. *)
Fixpoint forEach_trade (wrs : nat -> nat -> bool) (querySource : string)
    (trades : list JsVal) (index : nat) : Prog unit :=
  match trades with
  | [] => ret tt
  | trade :: rest =>
      onTrade (wrs index) querySource index trade ;;
      forEach_trade wrs querySource rest (S index)
  end.

(** [bitqueryConnection.on("message", ..)] *)
Definition onMessage (wrs : nat -> nat -> bool) (data : WireData) : Prog unit :=
  response <- lift (JSON_parse data) ;;
  type <- lift (Js.get response "type") ;;
  if Js.is_string type "connection_ack" then
    console Log ConnectionAcknowledged ;;
    emit (SocketSend "1") ;;
    console Log (SubscriptionSent "1") ;;
    emit (SocketSend "2") ;;
    console Log (SubscriptionSent "2")
  else if Js.is_string type "data" then
    subscriptionId <- lift (Js.get response "id") ;;
    let querySource :=
      if Js.is_string subscriptionId "1" then "Meteora DBC" else "Post-Migration" in
    payload <- lift (Js.get response "payload") ;;
    raw <- lift (Js.get payload "data") ;;
    console Log (RawData querySource raw) ;;
    payload <- lift (Js.get response "payload") ;;
    data <- lift (Js.get payload "data") ;;
    let dexTrades := Js.get_opt (Js.get_opt data "Solana") "DEXTrades" in
    let trades := if Js.truthy dexTrades then dexTrades else JArr [] in
    lift (Js.to_string (Js.length_of trades)) ;;
    console Log (ReceivedTrades querySource) ;;
    match trades with
    | JArr trades => forEach_trade wrs querySource trades 0
    | _ => throw TypeError
    end
  else if Js.is_string type "ka" then
    console Log KeepAlive
  else if Js.is_string type "error" then
    payload <- lift (Js.get response "payload") ;;
    errors <- lift (Js.get payload "errors") ;;
    console Error (ErrorMessage errors)
  else
    console Warn (UnhandledType type).

(** ** Start of the script *)

(** The module-level variables as their initialisers leave them, with
    [disk] what [trades.xlsx] holds, if it exists, and [now] the time. *)
Definition boot (disk : option Sheet) (now : Z) : World :=
  mkWorld [] [] (mkLimiter 0 now) disk now.

(** The workbook is read from the file when there is one; otherwise an
    empty sheet is made and written out, once. *)
Definition load_workbook (ok : bool) : Prog unit :=
  existing <- read file ;;
  match existing with
  | Some ws => modify (set_workbook ws)
  | None =>
      modify (set_workbook (json_to_sheet [])) ;;
      try_catch
        (writeFileSync ok ;; console Log InitializedFile)
        (fun _ => console Error InitializeFailed)
  end.

Definition startup (disk : option Sheet) (now : Z) (ok : bool) : World :=
  world_after (load_workbook ok (boot disk now)).

(** ** The running script

    After start-up the script reacts to feed messages and to the refund
    timer.  A message is handled in one go.  A refund cycle awaits the
    outside between its steps, and messages may be handled while it
    waits; its one write to the ledger, the [updateExcelRow] of a row
    that its scan found, then lands on the workbook of that moment.
    [step_settle] stands for that write of a cycle that was overtaken. *)
Inductive step : World -> World -> Prop :=
| step_message wrs data w :
    step w (world_after (onMessage wrs data w))
| step_refunds fuel env w :
    step w (world_after (processRefunds fuel env w))
| step_settle wr i link w :
    i < length (ledger w) ->
    step w (world_after (updateExcelRow wr i (refund_update link) w))
| step_time ms w :
    step w (elapse ms w).

Definition reachable (w0 w : World) : Prop := rtc step w0 w.

End Script.

(** ** Vocabulary of the properties *)

(** Whether one of the script's three write attempts goes through. *)
Definition written (wr : nat -> bool) : bool := wr 0 || wr 1 || wr 2.

Definition is_transfer (e : Effect) : bool :=
  match e with
  | SendAndConfirm _ _ => true
  | _ => false
  end.

Definition is_write (e : Effect) : bool :=
  match e with
  | FileWrite _ _ => true
  | _ => false
  end.

(** An effect that neither moves funds nor writes the file. *)
Definition quiet (e : Effect) : bool := negb (is_transfer e || is_write e).

(** The transfers submitted, and the write attempts made, among [effs]. *)
Definition transfers (effs : list Effect) : list Effect :=
  List.filter is_transfer effs.

Definition writes (effs : list Effect) : list Effect :=
  List.filter is_write effs.

(** The variables of the script are as they were. *)
Definition same_memory (w w' : World) : Prop :=
  workbook w' = workbook w
  /\ uniqueWallets w' = uniqueWallets w
  /\ limiter w' = limiter w.

(** The first row in ledger order that is still to be refunded, with its
    index; [i] is the index of the head of [rows]. *)
Fixpoint first_pending_from (i : nat) (rows : list Row) : option (nat * Row) :=
  match rows with
  | [] => None
  | row :: rest =>
      if pending row then Some (i, row) else first_pending_from (S i) rest
  end.

Definition first_pending (rows : list Row) : option (nat * Row) :=
  first_pending_from 0 rows.

(** The row at [i] goes from not refunded to refunded between [w] and [w']. *)
Definition becomes_refunded (w w' : World) (i : nat) : Prop :=
  exists row row',
    ledger w !! i = Some row /\ ledger w' !! i = Some row'
    /\ Js.field row "status" <> PNum 1 /\ Js.field row' "status" = PNum 1.

(** A trade out of which every property read of the callback succeeds,
    and whose five logged values convert to strings; the tests are in the
    order of the reads and conversions. *)
Definition well_formed_trade (trade : JsVal) : bool :=
  let t := Js.get_opt trade "Trade" in
  let buy := Js.get_opt t "Buy" in
  let sell := Js.get_opt t "Sell" in
  let sellCurrency := Js.get_opt (Js.get_opt sell "Currency") "MintAddress" in
  negb (Js.nullish trade) && negb (Js.nullish t)
  && negb (Js.nullish buy)
  && negb (Js.nullish (Js.get_opt buy "Account"))
  && negb (Js.nullish sell)
  && negb (Js.nullish (Js.get_opt sell "Currency"))
  && negb (Js.nullish (Js.get_opt buy "Currency"))
  && Js.printable (Js.get_opt (Js.get_opt buy "Account") "Address")
  && Js.printable (Js.get_opt (Js.get_opt buy "Currency") "MintAddress")
  && Js.printable sellCurrency
  && Js.printable (if Js.includes SOL_MINT_ADDRESSES sellCurrency
                   then Js.get_opt sell "Amount" else JPrim (PNum 0))
  && negb (Js.nullish (Js.get_opt trade "Block"))
  && Js.printable (Js.get_opt (Js.get_opt trade "Block") "Time").

(** A parsed message out of which every property read of the handler
    succeeds, and whose trades, if it lists any, are an array of
    well-formed trades. *)
Definition well_formed (response : JsVal) : bool :=
  negb (Js.nullish response)
  && let type := Js.get_opt response "type" in
     if Js.is_string type "connection_ack" then true
     else if Js.is_string type "data" then
       let payload := Js.get_opt response "payload" in
       negb (Js.nullish payload)
       && let dexTrades :=
            Js.get_opt (Js.get_opt (Js.get_opt payload "data") "Solana") "DEXTrades" in
          if Js.truthy dexTrades then
            match dexTrades with
            | JArr trades => forallb well_formed_trade trades
            | _ => false
            end
          else true
     else if Js.is_string type "ka" then true
     else if Js.is_string type "error" then
       negb (Js.nullish (Js.get_opt response "payload"))
     else true.

(** What handling trades does to the world: a run of accepted appends,
    each of a buyer not yet in the set. *)
Inductive ingested : World -> World -> Prop :=
| ingested_none w : ingested w w
| ingested_one w w1 w2 buyer sol :
    Js.set_has (uniqueWallets w) buyer = false ->
    uniqueWallets w1 = uniqueWallets w ++ [buyer] ->
    workbook w1 = Some <$> (ledger w ++ [new_trade buyer sol]) ->
    limiter w1 = limiter w ->
    ingested w1 w2 ->
    ingested w w2.

(** The set of buyers holds exactly the payers of the rows from index
    [n0] on. *)
Definition tracks (n0 : nat) (w : World) : Prop :=
  n0 <= length (ledger w)
  /\ forall a,
       Js.set_has (uniqueWallets w) (PStr a) = true <->
       exists i row,
         n0 <= i /\ ledger w !! i = Some row /\ Js.field row "ATA" = PStr a.

(** What the limiter knows of the acquisitions [past] made so far, when
    no later pass comes before [lo]. *)
Definition tallied (l : RateLimiter) (past : list Z) (lo : Z) : Prop :=
  (0 <= requestCount l <= RATE_LIMIT_PER_SECOND)%Z
  /\ Z.of_nat (count_in (lastResetTime l) RATE_LIMIT_INTERVAL past) = requestCount l
  /\ (lastResetTime l <= lo)%Z
  /\ Forall (fun t => (t < lastResetTime l + RATE_LIMIT_INTERVAL)%Z) past.

(** ** Sample inputs *)

(** A host on which refunds are enabled, every key is accepted and every
    account data decodes to the same owner.  The samples carry their
    amounts as numbers, so no string is ever converted. *)
Definition sample_host : Host := {|
  ENABLE_REFUNDS := true;
  PublicKey_valid := fun _ => true;
  PublicKey_of_bytes := fun _ => Some "OwnerWallet";
  transfer_encodable := fun _ => true;
  parseFloat_string := fun _ => nan;
  ToNumber_parsed := fun _ => nan
|}.

Definition object (props : list (string * JsVal)) : JsVal :=
  JObj (list_to_map props).

Definition SOL : string := "So11111111111111111111111111111111111111112".

(** One entry of [DEXTrades]. *)
Definition sample_trade (buyer buyMint sellMint : string) (amount : float)
  : JsVal :=
  object
    [ ("Trade",
       object
         [ ("Buy",
            object [ ("Account", object [("Address", JPrim (PStr buyer))]);
                     ("Currency", object [("MintAddress", JPrim (PStr buyMint))]) ]);
           ("Sell",
            object [ ("Currency", object [("MintAddress", JPrim (PStr sellMint))]);
                     ("Amount", JPrim (PNum amount)) ]) ]);
      ("Block", object [("Time", JPrim (PStr "2025-01-01T00:00:00Z"))]) ].

Definition sample_fields (buyer buyMint sellMint : string) (amount : float)
  : TradeFields :=
  mkTradeFields (PStr buyer) (PStr sellMint) (PNum amount) (PStr buyMint)
    (PStr "2025-01-01T00:00:00Z").

(** A "data" message of subscription 1 carrying [trades]. *)
Definition sample_data (trades : list JsVal) : WireData :=
  Json (object
    [ ("type", JPrim (PStr "data"));
      ("id", JPrim (PStr "1"));
      ("payload",
       object [("data", object [("Solana", object [("DEXTrades", JArr trades)])])]) ]).

(** A trade event that lacks its [Trade] member. *)
Definition truncated_trade : JsVal :=
  object [("Block", object [("Time", JPrim (PStr "2025-01-01T00:00:00Z"))])].

(** W1 buys the target asset for 1.5 SOL. *)
Definition w1_trade : JsVal := sample_trade "W1" TARGET_MINT_ADDRESS SOL 1.5.

(** A first start: no file yet, and the empty file gets written. *)
Definition fresh_world : World := startup None 0 true.

(** A restart over a file that holds one pending record of W1. *)
Definition restarted_world : World :=
  startup (Some [Some (new_trade (PStr "W1") (PNum 1.5))]) 0 true.

(** A world whose ledger is the one record: W1 paid 1 SOL, pending. *)
Definition one_pending_world : World :=
  startup (Some [Some (new_trade (PStr "W1") (PNum 1))]) 0 true.

Definition no_write : nat -> bool := fun _ => false.
Definition all_writes : nat -> bool := fun _ => true.

(** The world after W1's trade was handled while the disk refused every
    write. *)
Definition after_failed_append : World :=
  world_after (@onTrade sample_host no_write "Meteora DBC" 0 w1_trade fresh_world).

(** The world after a first data message, carrying W1's trade, was handled
    and written. *)
Definition after_first_message : World :=
  world_after
    (@onMessage sample_host (fun _ => all_writes) (sample_data [w1_trade]) fresh_world).

(** The answers of the outside in a cycle that finds [lamports] in the
    treasury, an account owned by the token program, and a cluster that
    confirms the transfer. *)
Definition sample_cycle (lamports : float) : RefundEnv :=
  mkRefundEnv (Resolves lamports) 40
    (mkResolverEnv 2
       (Resolves (Some (mkAccountInfo "TokenkegQfeZyiNwAJbNbGKPFXCWuBvf9Ss623VQ5DA" [])))
       60)
    (Resolves "5VERYLONGSIGNATURE") 900 all_writes.

(** An account that does not exist. *)
Definition missing_account : ResolverEnv := mkResolverEnv 2 (Resolves None) 60.

(** Nine passes in the last millisecond of the first window, nine more in
    the first millisecond of the next. *)
Definition burst : list Z := replicate 9 999%Z ++ replicate 9 1000%Z.

(** ** Vocabulary of the properties, continued *)

(** The trades that a message lists under [payload.data.Solana.DEXTrades],
    when that is an array. *)
Definition trades_of (data : WireData) : list JsVal :=
  match data with
  | Unparsable => []
  | Json response =>
      let data := Js.get_opt (Js.get_opt response "payload") "data" in
      match Js.get_opt (Js.get_opt data "Solana") "DEXTrades" with
      | JArr trades => trades
      | _ => []
      end
  end.

(** The buyer address of the trade is a value the sheet can store. *)
Definition storable_buyer (trade : JsVal) : bool :=
  storable
    (Js.get_opt
       (Js.get_opt (Js.get_opt (Js.get_opt trade "Trade") "Buy") "Account")
       "Address").

(** A message none of whose trades names as buyer an object that the
    library would take for a cell of its own.  The feed's schema has the
    address as a string. *)
Definition storable_feed (data : WireData) : bool :=
  forallb storable_buyer (trades_of data).

Section StorableRun.

Context `{Host}.

(** The steps of the running script on a feed of storable messages. *)
Inductive storable_step : World -> World -> Prop :=
| storable_message wrs data w :
    storable_feed data = true ->
    storable_step w (world_after (onMessage wrs data w))
| storable_refunds fuel env w :
    storable_step w (world_after (processRefunds fuel env w))
| storable_settle wr i link w :
    i < length (ledger w) ->
    storable_step w (world_after (updateExcelRow wr i (refund_update link) w))
| storable_time ms w :
    storable_step w (elapse ms w).

Definition storable_run (w0 w : World) : Prop := rtc storable_step w0 w.

End StorableRun.


(** The records that handling trades adds for the pairs [news] of buyer
    and amount. *)
Definition new_trades (news : list (JsVal * JsVal)) : list Row :=
  map (fun p : JsVal * JsVal => new_trade p.1 p.2) news.

(** What the limiter knows, seen from a span of one second that starts at
    [from]: a span that ended before the current window holds at most two
    windows' worth of acquisitions, and one that reaches into the current
    window holds at most one window's worth from before it. *)
Definition spanned (from : Z) (l : RateLimiter) (past : list Z) (lo : Z) : Prop :=
  tallied l past lo
  /\ ((from + RATE_LIMIT_INTERVAL <= lastResetTime l)%Z ->
      (Z.of_nat (count_in from RATE_LIMIT_INTERVAL past) <= 2 * RATE_LIMIT_PER_SECOND)%Z)
  /\ ((lastResetTime l < from + RATE_LIMIT_INTERVAL)%Z ->
      (Z.of_nat (count_in from (Z.min RATE_LIMIT_INTERVAL (lastResetTime l - from)) past)
       <= RATE_LIMIT_PER_SECOND)%Z).

Definition is_account_query (e : Effect) : bool :=
  match e with
  | GetAccountInfo _ => true
  | _ => false
  end.

(** The [getAccountInfo] requests among [effs]. *)
Definition account_queries (effs : list Effect) : list Effect :=
  List.filter is_account_query effs.

(** ** Sample inputs, continued *)

(** A ledger of two pending records: W1 paid 1 SOL, then W2 paid half a
    SOL. *)
Definition two_pending_world : World :=
  startup (Some [Some (new_trade (PStr "W1") (PNum 1));
                 Some (new_trade (PStr "W2") (PNum 0.5))]) 0 true.


(** W3's trade, with an address that does not convert to a string. *)
Definition unprintable_trade : JsVal :=
  object
    [ ("Trade",
       object
         [ ("Buy",
            object [ ("Account",
                      object [("Address", object [("toString", JPrim (PNum 0))])]);
                     ("Currency",
                      object [("MintAddress", JPrim (PStr TARGET_MINT_ADDRESS))]) ]);
           ("Sell",
            object [ ("Currency", object [("MintAddress", JPrim (PStr SOL))]);
                     ("Amount", JPrim (PNum 1.5)) ]) ]);
      ("Block", object [("Time", JPrim (PStr "2025-01-01T00:00:00Z"))]) ].

Definition USDC : string := "EPjFWdd5AufqSSqeM2qN1xzybapC8G4wEGGkZwyTDt1v".

(** W1 buys the target asset and pays in USDC. *)
Definition usdc_trade : JsVal := sample_trade "W1" TARGET_MINT_ADDRESS USDC 1.5.

Definition usdc_fields : TradeFields :=
  mkTradeFields (PStr "W1") (PStr USDC) (PNum 0) (PStr TARGET_MINT_ADDRESS)
    (PStr "2025-01-01T00:00:00Z").

(** W2 buys the target asset for 2 SOL. *)
Definition w2_trade : JsVal := sample_trade "W2" TARGET_MINT_ADDRESS SOL 2.

Definition keep_alive : JsVal := object [("type", JPrim (PStr "ka"))].

(** The world after a cycle with 10 SOL in the treasury settled the one
    pending record. *)
Definition settled_world : World :=
  world_after (@processRefunds sample_host 2 (sample_cycle 10000000000) one_pending_world).


Definition rejected_cycle : RefundEnv :=
  mkRefundEnv (Resolves 10000000000%float) 40 (resolver (sample_cycle 10000000000))
    Rejects 900 all_writes.


Definition balance_down : RefundEnv :=
  mkRefundEnv Rejects 40 missing_account Rejects 900 all_writes.

(** * Properties *)

#[local] Arguments persist : simpl never.
#[local] Arguments appendTradeToExcel : simpl never.
#[local] Arguments updateExcelRow : simpl never.
#[local] Arguments fetch_owner : simpl never.
#[local] Arguments rateLimitedGetOwnerWallet : simpl never.
#[local] Arguments refund_row : simpl never.
#[local] Arguments refund_scan : simpl never.
#[local] Arguments processRefunds : simpl never.
#[local] Arguments trade_fields : simpl never.
#[local] Arguments onTrade : simpl never.
#[local] Arguments forEach_trade : simpl never.
#[local] Arguments onMessage : simpl never.
#[local] Arguments pending : simpl never.
#[local] Arguments refund_update : simpl never.
#[local] Arguments new_trade : simpl never.
#[local] Arguments Js.get : simpl never.
#[local] Arguments Js.get_opt : simpl never.
#[local] Arguments Js.nullish : simpl never.
#[local] Arguments Js.field : simpl never.
#[local] Arguments Js.includes : simpl never.
#[local] Arguments Js.is_string : simpl never.
#[local] Arguments Js.set_has : simpl never.
#[local] Arguments Js.set_add : simpl never.
#[local] Arguments Js.strict_eq : simpl never.
#[local] Arguments Js.truthy : simpl never.

(** Running a computation one layer down. *)
Ltac prog_unfold :=
  unfold bind, try_catch, ret, throw, lift, emit, console, read, modify,
    writeFileSync, Atomics_wait; simpl.

(** ** The sheet *)

Lemma blank_spec (r : Row) :
  blank r = true <-> forall k v, r !! k = Some v -> nullish_cell v = true.
Proof.
  unfold blank. rewrite forallb_forall. split.
  - intros Hall k v Hk. apply (Hall (k, v)). apply list_elem_of_In.
    by apply elem_of_map_to_list.
  - intros Hall [k v] Hin. apply list_elem_of_In, elem_of_map_to_list in Hin.
    by eapply Hall.
Qed.

(** A row with a value that is neither [undefined] nor [null] is kept. *)
Lemma not_blank (r : Row) k v :
  r !! k = Some v -> nullish_cell v = false -> blank r = false.
Proof.
  intros Hk Hv. destruct (blank r) eqn:B; [|done].
  rewrite blank_spec in B. specialize (B k v Hk). congruence.
Qed.

Lemma blank_empty : blank ∅ = true.
Proof. apply blank_spec. intros k v Hk. by rewrite lookup_empty in Hk. Qed.

Lemma filter_all {A} (f : A -> bool) (l : list A) :
  Forall (fun x => f x = true) l -> List.filter f l = l.
Proof. induction 1 as [|x l Hx _ IH]; simpl; [done|]. by rewrite Hx, IH. Qed.

Lemma sheet_to_json_fmap (l : list Row) :
  sheet_to_json (Some <$> l) = List.filter (fun r => negb (blank r)) l.
Proof.
  unfold sheet_to_json. f_equal. induction l as [|r l IH]; simpl; [done | by f_equal].
Qed.

Lemma sheet_to_json_kept (ws : Sheet) :
  Forall (fun r => negb (blank r) = true) (sheet_to_json ws).
Proof.
  unfold sheet_to_json. apply Forall_forall. intros r Hin.
  apply list_elem_of_In, filter_In in Hin. tauto.
Qed.

Lemma sheet_to_json_dense (l : list Row) :
  Forall (fun r => negb (blank r) = true) l -> sheet_to_json (Some <$> l) = l.
Proof. intros Hl. rewrite sheet_to_json_fmap. by apply filter_all. Qed.



(** Reading a sheet, adding a row that has a value, and reading again. *)
Lemma sheet_to_json_snoc (ws : Sheet) (row : Row) :
  blank row = false ->
  sheet_to_json (Some <$> (sheet_to_json ws ++ [row])) = sheet_to_json ws ++ [row].
Proof.
  intros Hrow. apply sheet_to_json_dense. apply Forall_app. split.
  - apply sheet_to_json_kept.
  - repeat constructor. by rewrite Hrow.
Qed.

Lemma array_get_dense (l : list Row) (i : nat) :
  Js.array_get (Some <$> l) i = l !! i.
Proof. unfold Js.array_get. rewrite list_lookup_fmap. by destruct (l !! i). Qed.

Lemma array_set_in_range (l : list Row) (i : nat) (v : Row) :
  i < length l ->
  sheet_to_json (Js.array_set (Some <$> l) i v)
  = List.filter (fun r => negb (blank r)) (<[i := v]> l).
Proof.
  intros Hi. unfold Js.array_set. rewrite length_fmap.
  destruct (decide (i < length l)); [|lia].
  rewrite <- list_fmap_insert. apply sheet_to_json_fmap.
Qed.

(** Reading a sheet, replacing a row by one that has a value, and reading
    again. *)
Lemma sheet_to_json_insert (ws : Sheet) (i : nat) (v : Row) :
  i < length (sheet_to_json ws) ->
  blank v = false ->
  sheet_to_json (Js.array_set (Some <$> sheet_to_json ws) i v)
  = <[i := v]> (sheet_to_json ws).
Proof.
  intros Hi Hv. rewrite array_set_in_range by done. apply filter_all.
  apply Forall_insert; [apply sheet_to_json_kept | by rewrite Hv].
Qed.


(** ** Effects *)

Lemma transfers_app a b : transfers (a ++ b) = transfers a ++ transfers b.
Proof. apply List.filter_app. Qed.

Lemma writes_app a b : writes (a ++ b) = writes a ++ writes b.
Proof. apply List.filter_app. Qed.

Lemma transfers_cons e effs :
  transfers (e :: effs) = if is_transfer e then e :: transfers effs else transfers effs.
Proof. reflexivity. Qed.

Lemma writes_cons e effs :
  writes (e :: effs) = if is_write e then e :: writes effs else writes effs.
Proof. reflexivity. Qed.

(** Sorting the transfers, or the writes, out of a list of effects. *)
Ltac sift :=
  repeat first
    [ rewrite transfers_app | rewrite writes_app
    | rewrite transfers_cons | rewrite writes_cons ];
  simpl.

Lemma no_transfers effs :
  Forall (fun e => is_transfer e = false) effs -> transfers effs = [].
Proof.
  induction 1 as [|e effs He _ IH]; [done|]. unfold transfers in *; simpl.
  by rewrite He.
Qed.

Lemma quiet_no_transfers effs :
  Forall (fun e => quiet e = true) effs -> transfers effs = [].
Proof.
  intros F. apply no_transfers. eapply Forall_impl; [exact F|].
  intros e. unfold quiet. by destruct (is_transfer e).
Qed.

Lemma quiet_no_writes effs :
  Forall (fun e => quiet e = true) effs -> writes effs = [].
Proof.
  induction 1 as [|e effs He _ IH]; [done|]. unfold writes in *; simpl.
  unfold quiet in He. destruct (is_write e); [|done].
  by rewrite orb_true_r in He.
Qed.

(** ** LedgerStore *)

Lemma persist_S done failed gaveUp wr n retries :
  persist done failed gaveUp wr (S n) retries =
  bind (try_catch
          (bind (writeFileSync (wr retries)) (fun _ =>
           bind (console Log (done retries)) (fun _ =>
           ret (Some (PBool true)))))
          (fun _ =>
             bind (console Error (failed (retries + 1))) (fun _ =>
             if (retries =? MAX_WRITE_RETRIES - 1)%nat then
               bind (console Error (gaveUp retries)) (fun _ =>
               ret (Some (PBool false)))
             else
               bind (Atomics_wait 1000) (fun _ => ret None))))
       (fun r => match r with
                 | Some v => ret v
                 | None => persist done failed gaveUp wr n (S retries)
                 end).
Proof. reflexivity. Qed.

(** With the script's three attempts the loop returns a boolean, never
    [undefined]: whether one of the attempts went through.  The file then
    holds the workbook; otherwise it is as it was. *)
Lemma persist_thrice done failed gaveUp wr w :
  exists w' effs,
    persist done failed gaveUp wr MAX_WRITE_RETRIES 0 w
      = (Normal (PBool (written wr)), w', effs)
    /\ same_memory w w'
    /\ file w' = (if written wr then Some (workbook w) else file w)
    /\ Forall (fun e => is_transfer e = false) effs.
Proof.
  unfold MAX_WRITE_RETRIES, written. rewrite !persist_S. prog_unfold.
  destruct (wr 0); simpl; [eexists _, _; repeat split; eauto; by repeat constructor|].
  destruct (wr 1); simpl; [eexists _, _; repeat split; eauto; by repeat constructor|].
  destruct (wr 2); simpl; eexists _, _; repeat split; eauto; by repeat constructor.
Qed.

Lemma appendTradeToExcel_run wr ata solAmount w :
  exists w' effs,
    appendTradeToExcel wr ata solAmount w = (Normal (PBool (written wr)), w', effs)
    /\ workbook w' = Some <$> (ledger w ++ [new_trade ata solAmount])
    /\ uniqueWallets w' = uniqueWallets w
    /\ limiter w' = limiter w
    /\ file w' = (if written wr then Some (workbook w') else file w)
    /\ Forall (fun e => is_transfer e = false) effs.
Proof.
  unfold appendTradeToExcel. prog_unfold.
  match goal with |- context [persist ?a ?b ?c ?d _ _ ?g] =>
    destruct (persist_thrice a b c d g) as (w' & effs & E & (M1 & M2 & M3) & F & T) end.
  rewrite E. eexists _, _. rewrite M1. repeat split; eauto.
Qed.

Lemma updateExcelRow_run wr index updates w :
  exists w' effs,
    updateExcelRow wr index updates w = (Normal (PBool (written wr)), w', effs)
    /\ workbook w' =
         Js.array_set (Some <$> ledger w) index
           (updates ∪ Js.spread (Js.array_get (Some <$> ledger w) index))
    /\ uniqueWallets w' = uniqueWallets w
    /\ limiter w' = limiter w
    /\ file w' = (if written wr then Some (workbook w') else file w)
    /\ Forall (fun e => is_transfer e = false) effs.
Proof.
  unfold updateExcelRow. prog_unfold.
  match goal with |- context [persist ?a ?b ?c ?d _ _ ?g] =>
    destruct (persist_thrice a b c d g) as (w' & effs & E & (M1 & M2 & M3) & F & T) end.
  rewrite E. eexists _, _. rewrite M1. repeat split; eauto.
Qed.

Lemma new_trade_not_blank ata solAmount : blank (new_trade ata solAmount) = false.
Proof.
  apply (not_blank _ "status" (PNum 0)); [|done]. unfold new_trade.
  rewrite lookup_insert_ne by done. rewrite lookup_insert_ne by done.
  by rewrite lookup_insert_eq.
Qed.

Lemma refund_update_not_blank link row : blank (refund_update link ∪ row) = false.
Proof.
  apply (not_blank _ "status" (PNum 1)); [|done].
  apply lookup_union_Some_l. unfold refund_update. by rewrite lookup_insert_eq.
Qed.

(** The ledger after a record with a value was pushed. *)
Lemma ledger_snoc w w' row :
  workbook w' = Some <$> (ledger w ++ [row]) ->
  blank row = false ->
  ledger w' = ledger w ++ [row].
Proof.
  intros Wb Hrow. unfold ledger at 1. rewrite Wb. by apply sheet_to_json_snoc.
Qed.

(** The ledger after the record at [index] was merged with an update that
    leaves it a value. *)
Lemma ledger_merge w w' index updates r :
  ledger w !! index = Some r ->
  workbook w' =
    Js.array_set (Some <$> ledger w) index
      (updates ∪ Js.spread (Js.array_get (Some <$> ledger w) index)) ->
  blank (updates ∪ r) = false ->
  ledger w' = <[index := updates ∪ r]> (ledger w).
Proof.
  intros Hr Wb Hkept. unfold ledger at 1. rewrite Wb, array_get_dense, Hr. simpl.
  apply sheet_to_json_insert; [by eapply lookup_lt_Some | done].
Qed.




(** ** AddressResolver *)

Section Resolver.
Context `{Host}.

Lemma fetch_owner_run env ataAddress w :
  exists w' effs,
    fetch_owner env ataAddress w = (Normal (resolution env ataAddress), w', effs)
    /\ same_memory w w' /\ file w' = file w
    /\ Forall (fun e => quiet e = true) effs.
Proof.
  unfold fetch_owner, resolution, new_PublicKey, await_rpc. prog_unfold.
  destruct (PublicKey_valid ataAddress); simpl.
  2: { eexists _, _; repeat split; eauto; by repeat constructor. }
  destruct (accountInfo env) as [[info|]|]; simpl.
  2,3: eexists _, _; repeat split; eauto; by repeat constructor.
  destruct (Js.includes TOKEN_PROGRAM_IDS (PStr (owner info))); simpl.
  2: { eexists _, _; repeat split; eauto; by repeat constructor. }
  destruct (PublicKey_of_bytes _); simpl;
    eexists _, _; repeat split; eauto; by repeat constructor.
Qed.

Lemma acquire_wait now l l' ms :
  acquire now l = (l', Some ms) ->
  l' = l /\ (ms = RATE_LIMIT_INTERVAL - (now - lastResetTime l))%Z
  /\ (now - lastResetTime l < RATE_LIMIT_INTERVAL)%Z.
Proof.
  unfold acquire, RATE_LIMIT_INTERVAL, RATE_LIMIT_PER_SECOND.
  destruct (1000 <=? now - lastResetTime l)%Z eqn:E; simpl; [discriminate|].
  destruct (9 <=? requestCount l)%Z; [|discriminate].
  intros [= <- <-]. repeat split. lia.
Qed.

Lemma acquire_elapsed now l :
  (RATE_LIMIT_INTERVAL <= now - lastResetTime l)%Z ->
  acquire now l = (mkLimiter 1 now, None).
Proof.
  unfold acquire, RATE_LIMIT_INTERVAL, RATE_LIMIT_PER_SECOND. intros Hge.
  destruct (1000 <=? now - lastResetTime l)%Z eqn:E; [done | lia].
Qed.

Lemma resolver_S fuel env ataAddress :
  rateLimitedGetOwnerWallet (S fuel) env ataAddress =
  bind (read clock) (fun now =>
  bind (read limiter) (fun l =>
    let '(l', wait) := acquire now l in
    bind (modify (set_limiter l')) (fun _ =>
      match wait with
      | Some ms =>
          bind (sleep (timer_late env) ms) (fun _ =>
          rateLimitedGetOwnerWallet fuel env ataAddress)
      | None => fetch_owner env ataAddress
      end))).
Proof. reflexivity. Qed.

(** Whatever the fuel, the resolver touches the limiter and the clock only. *)
Lemma rateLimitedGetOwnerWallet_frame fuel env ataAddress w :
  exists c w' effs,
    rateLimitedGetOwnerWallet fuel env ataAddress w = (c, w', effs)
    /\ workbook w' = workbook w /\ uniqueWallets w' = uniqueWallets w
    /\ file w' = file w
    /\ (c = OutOfFuel \/ c = Normal (resolution env ataAddress))
    /\ Forall (fun e => quiet e = true) effs.
Proof.
  revert w. induction fuel as [|fuel IH]; intros w.
  - eexists _, _, _. repeat split; eauto.
  - rewrite resolver_S. prog_unfold.
    destruct (acquire (clock w) (limiter w)) as [l' [ms|]] eqn:E; simpl.
    + unfold sleep; simpl.
      match goal with |- context [rateLimitedGetOwnerWallet _ _ _ ?w1] =>
        destruct (IH w1) as (c & w' & effs & R & A & B & C & D & F) end.
      rewrite R. destruct c; eexists _, _, _; (repeat split; eauto; try by repeat constructor).
      all: destruct D as [D|D]; try discriminate; eauto.
    + destruct (fetch_owner_run env ataAddress (set_limiter l' w))
        as (w' & effs & R & (A & B & C) & D & F).
      rewrite R. eexists _, _, _. repeat split; eauto.
Qed.

(** Two calls are enough: after the sleep the window has elapsed. *)
Lemma rateLimitedGetOwnerWallet_returns n env ataAddress w :
  completion (rateLimitedGetOwnerWallet (S (S n)) env ataAddress w)
  = Normal (resolution env ataAddress).
Proof.
  rewrite resolver_S. prog_unfold. unfold completion.
  destruct (acquire (clock w) (limiter w)) as [l' [ms|]] eqn:E; simpl.
  - apply acquire_wait in E as (-> & -> & Hlt).
    rewrite resolver_S. unfold sleep. prog_unfold.
    rewrite acquire_elapsed by (unfold RATE_LIMIT_INTERVAL in *; lia). simpl.
    match goal with |- context [fetch_owner _ _ ?w1] =>
      destruct (fetch_owner_run env ataAddress w1) as (w' & effs & R & _) end.
    by rewrite R.
  - destruct (fetch_owner_run env ataAddress (set_limiter l' w)) as (w' & effs & R & _).
    by rewrite R.
Qed.

End Resolver.

(** ** RefundEngine *)

Lemma first_pending_from_spec i rows j row :
  first_pending_from i rows = Some (j, row) <->
  exists k, j = i + k /\ rows !! k = Some row /\ pending row = true
    /\ forall k' r, k' < k -> rows !! k' = Some r -> pending r = false.
Proof.
  revert i. induction rows as [|r rows IH]; intros i; simpl.
  - split; [done|]. by intros (k & _ & ? & _).
  - destruct (pending r) eqn:P.
    + split.
      * intros [= <- <-]. exists 0. repeat split; [lia|done|]. intros; lia.
      * intros (k & -> & Hk & Hp & Hbefore). destruct k as [|k].
        -- simpl in Hk. injection Hk as <-. do 2 f_equal. lia.
        -- specialize (Hbefore 0 r ltac:(lia) eq_refl). congruence.
    + rewrite IH. split.
      * intros (k & -> & Hk & Hp & Hbefore). exists (S k).
        repeat split; [lia|done|done|].
        intros [|k'] r' Hlt Hr'; simpl in Hr'; [congruence|].
        eapply Hbefore; [|done]. lia.
      * intros (k & -> & Hk & Hp & Hbefore). destruct k as [|k].
        -- simpl in Hk. congruence.
        -- exists k. repeat split; [lia|done|done|].
           intros k' r' Hlt Hr'. apply (Hbefore (S k') r'); [lia|done].
Qed.

Lemma first_pending_spec rows j row :
  first_pending rows = Some (j, row) <->
  rows !! j = Some row /\ pending row = true
  /\ forall k r, k < j -> rows !! k = Some r -> pending r = false.
Proof.
  unfold first_pending. rewrite first_pending_from_spec. split.
  - intros (k & -> & ?). done.
  - intros ?. by exists j.
Qed.

Section Refunds.
Context `{Host}.

Lemma refund_scan_first fuel env treasuryBalance rest i w :
  refund_scan fuel env treasuryBalance rest i w =
  match first_pending_from i rest with
  | Some (j, row) => refund_row fuel env treasuryBalance j row w
  | None => console Log NoMorePending w
  end.
Proof.
  revert i. induction rest as [|row rest IH]; intros i; [reflexivity|].
  change (refund_scan fuel env treasuryBalance (row :: rest) i)
    with (if negb (pending row)
          then refund_scan fuel env treasuryBalance rest (S i)
          else refund_row fuel env treasuryBalance i row).
  simpl. destruct (pending row); simpl; [done | apply IH].
Qed.

(** What refunding one pending row can do. *)
Lemma refund_row_run fuel env treasuryBalance j row w :
  ledger w !! j = Some row ->
  let sol := parseFloat (Js.field row "sol_buy_amount") in
  let affordable := (requiredBalance sol <=? treasuryBalance)%float in
  exists c w' effs,
    refund_row fuel env treasuryBalance j row w = (c, w', effs)
    /\ uniqueWallets w' = uniqueWallets w
    /\ (transfers effs = []
        \/ affordable = true /\ exists to, transfers effs = [SendAndConfirm to sol])
    /\ (workbook w' = workbook w /\ file w' = file w /\ writes effs = []
        \/ affordable = true
           /\ (exists to, transfers effs = [SendAndConfirm to sol])
           /\ exists link,
                ledger w' = <[j := refund_update link ∪ row]> (ledger w))
    /\ (affordable = false ->
        c = Normal tt /\ w' = w
        /\ effs = [Console Log (InsufficientBalance treasuryBalance sol
                     (Js.field row "ATA") (requiredBalance sol))]).
Proof.
  intros Hrow sol affordable. subst sol affordable. unfold refund_row.
  destruct (requiredBalance _ <=? treasuryBalance)%float eqn:Haff.
  2: { prog_unfold. eexists _, _, _. repeat split; eauto. }
  unfold bind at 1.
  destruct (rateLimitedGetOwnerWallet_frame fuel (resolver env) (Js.field row "ATA") w)
    as (c & w1 & e1 & R & Wb1 & U1 & F1 & C1 & Q1).
  rewrite R.
  pose proof (quiet_no_transfers _ Q1) as T1.
  pose proof (quiet_no_writes _ Q1) as Wr1.
  assert (Hquiet : forall (c' : Completion unit) w' m,
    workbook w' = workbook w -> uniqueWallets w' = uniqueWallets w ->
    file w' = file w ->
    exists c w'' effs, (c', w', e1 ++ [Console Error m]) = (c, w'', effs)
      /\ uniqueWallets w'' = uniqueWallets w
      /\ (transfers effs = [] \/ true = true /\ exists to,
            transfers effs = [SendAndConfirm to (parseFloat (Js.field row "sol_buy_amount"))])
      /\ (workbook w'' = workbook w /\ file w'' = file w /\ writes effs = []
          \/ true = true
             /\ (exists to, transfers effs = [SendAndConfirm to (parseFloat (Js.field row "sol_buy_amount"))])
             /\ exists link, ledger w'' = <[j := refund_update link ∪ row]> (ledger w))
      /\ (true = false -> c = Normal tt /\ w'' = w
          /\ effs = [Console Log (InsufficientBalance treasuryBalance
                       (parseFloat (Js.field row "sol_buy_amount"))
                       (Js.field row "ATA")
                       (requiredBalance (parseFloat (Js.field row "sol_buy_amount"))))])).
  { intros c' w' m ? ? ?. eexists _, _, _. split; [reflexivity|].
    sift; rewrite T1, Wr1; simpl.
    split; [done|]. split; [by left|]. split; [by left|]. discriminate. }
  destruct C1 as [-> | ->].
  { eexists _, _, _. split; [reflexivity|].
    split; [done|]. split; [by left|]. split; [by left|]. discriminate. }
  destruct (Js.strict_eq _ _).
  { prog_unfold. eexists _, _, _. split; [reflexivity|].
    sift; rewrite T1, Wr1; simpl.
    split; [done|]. split; [by left|]. split; [by left|]. discriminate. }
  unfold new_PublicKey, await_rpc. prog_unfold.
  destruct (PublicKey_valid _); simpl; [|by apply Hquiet].
  destruct (transfer_encodable _); simpl; [|by apply Hquiet].
  destruct (confirmation env) as [signature|]; simpl.
  2: { eexists _, _, _. split; [reflexivity|].
       sift; rewrite T1, Wr1; simpl.
       split; [done|]. split; [right; eauto|]. split; [left; done|]. discriminate. }
  match goal with |- context [updateExcelRow ?a ?b ?c ?d] =>
    destruct (updateExcelRow_run a b c d) as (w3 & e3 & E3 & Wb3 & U3 & L3 & F3 & T3) end.
  rewrite E3. apply no_transfers in T3. simpl in U3, L3.
  assert (HL : ledger w3 =
               <[j := refund_update (String.append "https://solscan.io/tx/" signature) ∪ row]> (ledger w)).
  { assert (Hl : ledger (elapse (Z.of_nat (confirmation_latency env)) w1) = ledger w)
      by (unfold ledger; simpl; by rewrite Wb1).
    assert (Hrow1 : ledger (elapse (Z.of_nat (confirmation_latency env)) w1) !! j
                    = Some row) by (by rewrite Hl).
    rewrite <- Hl.
    apply (ledger_merge _ _ _ _ _ Hrow1 Wb3), refund_update_not_blank. }
  destruct (negb (Js.truthy (PBool (written (update_writes env))))); simpl.
  all: eexists _, _, _; (split; [reflexivity|]).
  all: sift; rewrite T1, T3; simpl.
  all: split; [congruence|].
  all: split; [right; split; [reflexivity|]; eexists; reflexivity|].
  all: split; [right; split; [reflexivity|]; split; [eexists; reflexivity|]; eexists; exact HL|].
  all: discriminate.
Qed.

(** What a cycle can do: it never touches the set of buyers; it submits
    at most one transfer, and that one for the first pending row and only
    if that row is affordable; and it rewrites at most that row. *)
Lemma processRefunds_run fuel env w :
  exists c w' effs,
    processRefunds fuel env w = (c, w', effs)
    /\ uniqueWallets w' = uniqueWallets w
    /\ (transfers effs = []
        \/ exists lamports j row to,
             ENABLE_REFUNDS = true
             /\ balance env = Resolves lamports
             /\ first_pending (ledger w) = Some (j, row)
             /\ (requiredBalance (parseFloat (Js.field row "sol_buy_amount"))
                   <=? lamports / 1e9)%float = true
             /\ transfers effs =
                  [SendAndConfirm to (parseFloat (Js.field row "sol_buy_amount"))])
    /\ (workbook w' = workbook w /\ file w' = file w /\ writes effs = []
        \/ transfers effs <> []
           /\ exists j row link,
                first_pending (ledger w) = Some (j, row)
                /\ ledger w' = <[j := refund_update link ∪ row]> (ledger w)).
Proof.
  unfold processRefunds. destruct ENABLE_REFUNDS eqn:En; simpl.
  2: { prog_unfold. eexists _, _, _. split; [reflexivity|].
       split; [done|]. split; [by left|]. by left. }
  unfold await_rpc. prog_unfold.
  destruct (balance env) as [lamports|] eqn:Hbal; simpl.
  2: { eexists _, _, _. split; [reflexivity|].
       split; [done|]. split; [by left|]. by left. }
  rewrite refund_scan_first. fold (first_pending (sheet_to_json (workbook w))).
  fold (ledger w).
  destruct (first_pending (ledger w)) as [[j row]|] eqn:Hfp.
  2: { prog_unfold. eexists _, _, _. split; [reflexivity|].
       split; [done|]. split; [by left|]. by left. }
  pose proof Hfp as Hfp'. apply first_pending_spec in Hfp' as (Hrow & Hp & _).
  destruct (refund_row_run fuel env (lamports / 1e9)%float j row
              (elapse (Z.of_nat (balance_latency env)) w) Hrow)
    as (c & w' & effs & R & U & T & L & _).
  rewrite R. simpl in U, L. eexists _, _, _. split; [reflexivity|].
  sift. split; [done|]. split.
  - destruct T as [T | (Haff & to & T)]; [by left|]. right.
    exists lamports, j, row, to. by rewrite T.
  - destruct L as [(A & B & C) | (Haff & (to & T') & link & HL)].
    + left. by rewrite C.
    + right. rewrite T'. split; [done|]. by exists j, row, link.
Qed.

(** A cycle that finds its first pending row out of reach reports it and
    does nothing else. *)
Lemma processRefunds_unaffordable fuel env w lamports j row :
  ENABLE_REFUNDS = true ->
  balance env = Resolves lamports ->
  first_pending (ledger w) = Some (j, row) ->
  (requiredBalance (parseFloat (Js.field row "sol_buy_amount"))
     <=? lamports / 1e9)%float = false ->
  processRefunds fuel env w =
  (Normal tt, elapse (Z.of_nat (balance_latency env)) w,
   [ Console Log CheckingRefunds; GetBalance;
     Console Log (TreasuryBalance (lamports / 1e9));
     Console Log (InsufficientBalance (lamports / 1e9)
                    (parseFloat (Js.field row "sol_buy_amount"))
                    (Js.field row "ATA")
                    (requiredBalance (parseFloat (Js.field row "sol_buy_amount")))) ]).
Proof.
  intros En Hbal Hfp Haff. unfold processRefunds. rewrite En; simpl.
  unfold await_rpc. prog_unfold. rewrite Hbal; simpl.
  rewrite refund_scan_first. fold (first_pending (sheet_to_json (workbook w))).
  fold (ledger w). rewrite Hfp.
  pose proof Hfp as Hfp'. apply first_pending_spec in Hfp' as (Hrow & Hp & _).
  destruct (refund_row_run fuel env (lamports / 1e9)%float j row
              (elapse (Z.of_nat (balance_latency env)) w) Hrow)
    as (c & w' & effs & R & _ & _ & _ & Hno).
  rewrite R. destruct (Hno Haff) as (-> & -> & ->). done.
Qed.

End Refunds.

Lemma SFcompare_Lt_flip (x y : spec_float) :
  SFcompare x y = Some Lt -> SFcompare y x = Some Gt.
Proof.
  destruct x as [ | [] | | [] m1 e1], y as [ | [] | | [] m2 e2]; simpl;
    try congruence; try (destruct b; congruence); try (destruct s; congruence);
    change (PosDef.Pos.compare_cont Eq m1 m2) with (Pos.compare m1 m2);
    change (PosDef.Pos.compare_cont Eq m2 m1) with (Pos.compare m2 m1);
    rewrite (Z.compare_antisym e1 e2), (Pos.compare_antisym m1 m2);
    destruct (e1 ?= e2)%Z; simpl; try congruence;
    destruct (m1 ?= m2)%positive; simpl; congruence.
Qed.

(** On binary64 values, [a < b] rules out [b <= a]. *)
Lemma float_lt_not_ge (a b : float) :
  (a <? b)%float = true -> (b <=? a)%float = false.
Proof.
  rewrite ltb_spec, leb_spec. unfold SFltb, SFleb.
  destruct (SFcompare (Prim2SF a) (Prim2SF b)) as [[]|] eqn:E; try discriminate.
  intros _. by rewrite (SFcompare_Lt_flip _ _ E).
Qed.

Section RefundTheorems.
Context `{Host}.

(** C4.  Strict queue.  If the first row in ledger order that is pending
  requires more than the treasury holds, the cycle submits no transfer
  and writes nothing: the workbook and the file are as they were, also
  when a later row would be affordable. *)
Theorem unaffordable_head_blocks_cycle fuel env w lamports i row :
balance env = Resolves lamports ->
ledger w !! i = Some row ->
pending row = true ->
(forall k r, k < i -> ledger w !! k = Some r -> pending r = false) ->
(lamports / 1e9 <? 2 + 2 * parseFloat (Js.field row "sol_buy_amount"))%float = true ->
let r := processRefunds fuel env w in
transfers (effects r) = []
/\ writes (effects r) = []
/\ workbook (world_after r) = workbook w
/\ file (world_after r) = file w.
Proof.
intros Hbal Hrow Hp Hfirst Hlt r. subst r.
destruct ENABLE_REFUNDS eqn:En.
- assert (Hfp : first_pending (ledger w) = Some (i, row))
    by (by apply first_pending_spec).
  apply float_lt_not_ge in Hlt.
  by rewrite (processRefunds_unaffordable fuel env w lamports i row En Hbal Hfp Hlt).
- unfold processRefunds. by rewrite En.
Qed.

(** C5.  One settlement per cycle.  Whatever the ledger, the treasury and
  the answers of the outside, a cycle submits at most one transfer, and
  at most one row goes from not refunded to refunded. *)
Theorem one_settlement_per_cycle fuel env w :
let r := processRefunds fuel env w in
length (transfers (effects r)) <= 1
/\ (forall i j,
      becomes_refunded w (world_after r) i ->
      becomes_refunded w (world_after r) j -> i = j).
Proof.
intros r. subst r.
destruct (processRefunds_run fuel env w) as (c & w' & effs & R & _ & T & L).
rewrite R. unfold effects, world_after; simpl. split.
- destruct T as [-> | (? & ? & ? & ? & _ & _ & _ & _ & ->)]; simpl; lia.
- assert (Hone : exists k, forall i, i <> k -> ledger w' !! i = ledger w !! i).
  { destruct L as [(Wb & _) | (_ & k & row & link & _ & HL)].
    - exists 0. intros i _. unfold ledger. by rewrite Wb.
    - exists k. intros i Hi. rewrite HL. by apply list_lookup_insert_ne. }
  destruct Hone as (k & Hk).
  assert (Hat : forall i, becomes_refunded w w' i -> i = k).
  { intros i (row & row' & Hr & Hr' & Hs & Hs').
    destruct (decide (i = k)) as [|Hne]; [done|].
    rewrite (Hk i Hne), Hr in Hr'. congruence. }
  intros i j Hi Hj. by rewrite (Hat i Hi), (Hat j Hj).
Qed.

(** C6.  Resolution falls back to its input.  With fuel for two calls the
  resolver returns, and never throws.  It returns its argument when the
  account does not exist, when the account's owner is not a token
  program, and when the fetch is rejected; a result other than the
  argument is the owner key decoded from the data of an account that a
  token program owns. *)
Theorem resolver_falls_back_to_input n env ataAddress w :
exists result,
  completion (rateLimitedGetOwnerWallet (S (S n)) env ataAddress w)
    = Normal result
  /\ (accountInfo env = Resolves None -> result = ataAddress)
  /\ (forall info,
        accountInfo env = Resolves (Some info) ->
        Js.includes TOKEN_PROGRAM_IDS (PStr (owner info)) = false ->
        result = ataAddress)
  /\ (accountInfo env = Rejects -> result = ataAddress)
  /\ (result <> ataAddress ->
      exists info ownerPublicKey,
        accountInfo env = Resolves (Some info)
        /\ Js.includes TOKEN_PROGRAM_IDS (PStr (owner info)) = true
        /\ PublicKey_of_bytes (take 32 (drop 32 (data info))) = Some ownerPublicKey
        /\ result = PStr ownerPublicKey).
Proof.
exists (resolution env ataAddress).
split; [apply rateLimitedGetOwnerWallet_returns|].
unfold resolution. destruct (PublicKey_valid ataAddress).
2: { repeat split; try done. }
destruct (accountInfo env) as [[info|]|].
2,3: repeat split; try done.
destruct (Js.includes TOKEN_PROGRAM_IDS (PStr (owner info))) eqn:Hin.
2: { repeat split; try done. }
destruct (PublicKey_of_bytes _) as [key|] eqn:Hkey.
2: { repeat split; try done. }
repeat split; try done.
- intros info' [= <-]. congruence.
- intros _. by exists info, key.
Qed.

(** C7.  Affordability threshold.  A cycle that submits a transfer or
  changes the ledger does so for the first pending row, and only when
  the treasury balance is at least [2 + 2 * amount] for that row's
  amount.  With 3 SOL in the treasury and one pending row of amount 1
  the cycle reports a required balance of 4 and ends without a transfer
  or a write. *)
Theorem affordability_threshold :
(forall fuel env w,
   let r := processRefunds fuel env w in
   transfers (effects r) <> [] \/ ledger (world_after r) <> ledger w ->
   exists lamports j row to,
     balance env = Resolves lamports
     /\ first_pending (ledger w) = Some (j, row)
     /\ (2 + 2 * parseFloat (Js.field row "sol_buy_amount")
           <=? lamports / 1e9)%float = true
     /\ transfers (effects r)
        = [SendAndConfirm to (parseFloat (Js.field row "sol_buy_amount"))])
/\ (forall fuel env w,
      ENABLE_REFUNDS = true ->
      balance env = Resolves 3000000000%float ->
      ledger w = [new_trade (PStr "W1") (PNum 1)] ->
      let r := processRefunds fuel env w in
      effects r =
        [ Console Log CheckingRefunds; GetBalance;
          Console Log (TreasuryBalance 3);
          Console Log (InsufficientBalance 3 1 (PStr "W1") 4) ]
      /\ workbook (world_after r) = workbook w
      /\ file (world_after r) = file w).
Proof.
split.
- intros fuel env w r Hsettled. subst r.
  destruct (processRefunds_run fuel env w) as (c & w' & effs & R & _ & T & L).
  rewrite R in *. unfold effects, world_after in *; simpl in *.
  assert (Ht : transfers effs <> []).
  { destruct Hsettled as [|Hl]; [done|].
    destruct L as [(Wb & _) | (Ht & _)]; [|done].
    exfalso. apply Hl. unfold ledger. by rewrite Wb. }
  destruct T as [T | (lamports & j & row & to & _ & Hbal & Hfp & Haff & T)]; [done|].
  by exists lamports, j, row, to.
- intros fuel env w En Hbal Hl r. subst r.
  assert (Hfp : first_pending (ledger w)
                = Some (0, new_trade (PStr "W1") (PNum 1))) by (by rewrite Hl).
  rewrite (processRefunds_unaffordable fuel env w _ _ _ En Hbal Hfp); done.
Qed.

End RefundTheorems.

(** ** RateLimiter *)

Lemma count_in_app from len a b :
  count_in from len (a ++ b) = count_in from len a + count_in from len b.
Proof. induction a as [|t a IH]; simpl; [done|]. rewrite IH. lia. Qed.

Lemma count_in_later from len ts :
  Forall (fun t => (from + len <= t)%Z) ts -> count_in from len ts = 0.
Proof.
  induction 1 as [|t ts Ht _ IH]; simpl; [done|]. rewrite IH.
  destruct (from <=? t)%Z; simpl; [|done].
  destruct (t <? from + len)%Z eqn:E; [lia|done].
Qed.

Lemma count_in_earlier from len ts :
  Forall (fun t => (t < from)%Z) ts -> count_in from len ts = 0.
Proof.
  induction 1 as [|t ts Ht _ IH]; simpl; [done|]. rewrite IH.
  destruct (from <=? t)%Z eqn:E; [lia|done].
Qed.

Lemma acquire_cases now l :
  ((RATE_LIMIT_INTERVAL <= now - lastResetTime l)%Z
   /\ acquire now l = (mkLimiter 1 now, None))
  \/ ((now - lastResetTime l < RATE_LIMIT_INTERVAL)%Z
      /\ (RATE_LIMIT_PER_SECOND <= requestCount l)%Z
      /\ acquire now l = (l, Some (RATE_LIMIT_INTERVAL - (now - lastResetTime l))%Z))
  \/ ((now - lastResetTime l < RATE_LIMIT_INTERVAL)%Z
      /\ (requestCount l < RATE_LIMIT_PER_SECOND)%Z
      /\ acquire now l = (mkLimiter (requestCount l + 1) (lastResetTime l), None)).
Proof.
  unfold acquire, RATE_LIMIT_INTERVAL, RATE_LIMIT_PER_SECOND.
  destruct (1000 <=? now - lastResetTime l)%Z eqn:E; simpl.
  - left. split; [lia|done].
  - right. destruct (9 <=? requestCount l)%Z eqn:E'; [left | right]; repeat split; lia.
Qed.

(** Acquisitions complete at times at which the gate was passed. *)
Lemma acquisitions_later l lo nows :
  nondecreasing lo nows ->
  Forall (fun t => (lo <= t)%Z) (acquisitions (passes l nows)).
Proof.
  revert l lo. induction nows as [|now rest IH]; intros l lo; simpl; [done|].
  intros [Hlo Hrest].
  assert (Forall (fun t => (lo <= t)%Z) (acquisitions (passes (acquire now l).1 rest))).
  { eapply Forall_impl; [by apply IH|]. simpl. intros; lia. }
  destruct (admitted _); [constructor|]; done.
Qed.

Lemma windows_bounded nows : forall l past lo,
  tallied l past lo ->
  nondecreasing lo nows ->
  forall ws, ws ∈ window_starts l (passes l nows) ->
  (Z.of_nat (count_in ws RATE_LIMIT_INTERVAL (past ++ acquisitions (passes l nows)))
   <= RATE_LIMIT_PER_SECOND)%Z.
Proof.
  unfold window_starts.
  induction nows as [|now rest IH]; intros l past lo (Hc & Htally & Hlast & Hpast) Hnd ws Hws.
  - simpl in *. rewrite app_nil_r. apply list_elem_of_singleton in Hws as ->. lia.
  - destruct Hnd as [Hlo Hrest]. simpl in Hws |- *.
    destruct (acquire_cases now l) as [(Hel & E) | [(Hin & Hfull & E) | (Hin & Hfree & E)]];
      rewrite E in *; simpl in *.
    + (* the window has elapsed: the counter restarts at this pass *)
      assert (Hnew : tallied (mkLimiter 1 now) (past ++ [now]) now).
      { unfold tallied, RATE_LIMIT_INTERVAL, RATE_LIMIT_PER_SECOND in *; simpl.
        repeat split; try lia.
        - rewrite count_in_app, count_in_earlier; simpl.
          + destruct (now <=? now)%Z eqn:?, (now <? now + 1000)%Z eqn:?; simpl; lia.
          + eapply Forall_impl; [exact Hpast|]. simpl; intros; lia.
        - apply Forall_app. split; [|repeat constructor; lia].
          eapply Forall_impl; [exact Hpast|]. simpl; intros; lia. }
      apply elem_of_cons in Hws as [-> | Hws].
      * rewrite count_in_app. rewrite (count_in_later _ _ (now :: _)); [lia|].
        pose proof (acquisitions_later (mkLimiter 1 now) now rest Hrest) as Hlater.
        constructor; [lia|].
        eapply Forall_impl; [exact Hlater|]. simpl; intros; lia.
      * specialize (IH _ _ _ Hnew Hrest ws Hws).
        by rewrite <- app_assoc in IH.
    + (* the window is full: the caller is turned away *)
      assert (Hsame : tallied l past now).
      { unfold tallied in *. repeat split; try done; lia. }
      apply (IH _ _ _ Hsame Hrest).
      apply elem_of_cons in Hws as [-> | Hws]; [left | done].
    + (* a slot is free *)
      assert (Hnew : tallied (mkLimiter (requestCount l + 1) (lastResetTime l))
                       (past ++ [now]) now).
      { unfold tallied, RATE_LIMIT_INTERVAL, RATE_LIMIT_PER_SECOND in *; simpl.
        repeat split; try lia.
        - rewrite count_in_app; simpl.
          destruct (lastResetTime l <=? now)%Z eqn:?,
                   (now <? lastResetTime l + 1000)%Z eqn:?; simpl; lia.
        - apply Forall_app. split; [done|]. repeat constructor; lia. }
      assert (Hin' : ws ∈ lastResetTime l
                       :: map (fun e : Z * bool * RateLimiter => lastResetTime e.2)
                            (passes (mkLimiter (requestCount l + 1) (lastResetTime l)) rest)).
      { apply elem_of_cons in Hws as [-> | Hws]; [left | done]. }
      specialize (IH _ _ _ Hnew Hrest ws Hin').
      by rewrite <- app_assoc in IH.
Qed.

(** C3, as the script has it.  The limiter counts in fixed windows.  In
    every execution whose clock readings never go back, each window of one
    second that starts at a value taken by [lastResetTime] sees at most
    nine acquisitions complete.  A span of one second that straddles a
    reset is not bounded this way. *)
Theorem fixed_window_bound t0 nows ws :
  nondecreasing t0 nows ->
  ws ∈ window_starts (mkLimiter 0 t0) (passes (mkLimiter 0 t0) nows) ->
  (Z.of_nat (count_in ws RATE_LIMIT_INTERVAL
               (acquisitions (passes (mkLimiter 0 t0) nows)))
   <= RATE_LIMIT_PER_SECOND)%Z.
Proof.
  intros Hnd Hws.
  apply (windows_bounded nows (mkLimiter 0 t0) [] t0); [|done|done].
  unfold tallied, RATE_LIMIT_PER_SECOND, RATE_LIMIT_INTERVAL; simpl.
  repeat split; try lia. constructor.
Qed.

(** ** StreamConsumer *)

Lemma to_string_printable v :
  Js.to_string v = if Js.printable v then Normal tt else Throw TypeError.
Proof. reflexivity. Qed.

Lemma get_get_opt o k :
  Js.get o k = if Js.nullish o then Throw TypeError else Normal (Js.get_opt o k).
Proof. by destruct o as [[]| |]. Qed.

(** One property read of [trade_fields]: either its base is known not to
    be nullish, or the read splits on it. *)
Ltac read_next :=
  match goal with
  | |- context [Js.and_then (Js.get ?o ?k) _] =>
      rewrite (get_get_opt o k);
      first
        [ match goal with
          | Hn : Js.nullish o = false |- _ => rewrite Hn; simpl
          end
        | destruct (Js.nullish o) eqn:?; simpl; [reflexivity|] ]
  end.

(** One conversion to a string of [trade_fields]. *)
Ltac convert_next :=
  match goal with
  | |- context [Js.and_then (Js.to_string ?v) _] =>
      rewrite (to_string_printable v);
      destruct (Js.printable v) eqn:?; simpl; [|reflexivity]
  end.

Lemma trade_fields_well_formed trade :
  if well_formed_trade trade
  then exists f, trade_fields trade = Normal f
  else trade_fields trade = Throw TypeError.
Proof.
  unfold well_formed_trade, trade_fields.
  do 8 read_next.
  match goal with
  | |- context [Js.and_then (if ?b then _ else _) _] => destruct b; simpl
  end.
  all: repeat first [read_next | convert_next]; eauto.
Qed.

Lemma target_mint_set : Js.truthy (PStr TARGET_MINT_ADDRESS) = true.
Proof. reflexivity. Qed.

Section Stream.
Context `{Host}.

Lemma onTrade_run wr querySource index trade f w :
  trade_fields trade = Normal f ->
  exists w' effs,
    onTrade wr querySource index trade w = (Normal tt, w', effs)
    /\ transfers effs = []
    /\ if accepted f w then
         uniqueWallets w' = uniqueWallets w ++ [buyerAddress f]
         /\ workbook w'
            = Some <$> (ledger w ++ [new_trade (buyerAddress f) (solAmount f)])
         /\ limiter w' = limiter w
         /\ file w' = (if written wr then Some (workbook w') else file w)
       else w' = w /\ writes effs = [].
Proof.
  intros Hf. unfold onTrade, accepted, wallet_logged. rewrite Hf, target_mint_set.
  prog_unfold.
  destruct (Js.is_string (buyMint f) TARGET_MINT_ADDRESS); simpl.
  2: { eexists _, _. split; [reflexivity|]. done. }
  destruct (Js.set_has (uniqueWallets w) (buyerAddress f)) eqn:Hhas; simpl.
  { rewrite Hhas; simpl. eexists _, _. split; [reflexivity|]. done. }
  destruct (gt_zero (solAmount f)); simpl.
  2: { rewrite Hhas; simpl. destruct (Js.is_number (solAmount f) 0); simpl;
         eexists _, _; (split; [reflexivity|]); done. }
  match goal with |- context [appendTradeToExcel ?a ?b ?c ?d] =>
    destruct (appendTradeToExcel_run a b c d)
      as (w' & effs & E & Wb & U & L & F & T) end.
  rewrite E. apply no_transfers in T. simpl in Wb, U, L, F.
  unfold Js.set_add in U. rewrite Hhas in U.
  destruct (Js.truthy (PBool (written wr))); simpl;
    eexists _, _; (split; [reflexivity|]); sift; rewrite T; done.
Qed.

Lemma onTrade_throws wr querySource index trade w :
  well_formed_trade trade = false ->
  onTrade wr querySource index trade w = (Throw TypeError, w, []).
Proof.
  intros Hwf. pose proof (trade_fields_well_formed trade) as Hf.
  rewrite Hwf in Hf. unfold onTrade. rewrite Hf. by prog_unfold.
Qed.

Lemma forEach_trade_cons wrs querySource trade rest index :
  forEach_trade wrs querySource (trade :: rest) index =
  bind (onTrade (wrs index) querySource index trade) (fun _ =>
    forEach_trade wrs querySource rest (S index)).
Proof. reflexivity. Qed.

Lemma forEach_trade_run wrs querySource trades : forall index w,
  exists w' effs,
    forEach_trade wrs querySource trades index w
      = (if forallb well_formed_trade trades then Normal tt else Throw TypeError,
         w', effs)
    /\ ingested w w'
    /\ transfers effs = [].
Proof.
  induction trades as [|trade rest IH]; intros index w.
  - eexists _, _. split; [reflexivity|]. split; [constructor | done].
  - rewrite forEach_trade_cons. unfold bind. simpl forallb.
    pose proof (trade_fields_well_formed trade) as Hwf.
    destruct (well_formed_trade trade) eqn:Ewf.
    + destruct Hwf as [f Hf].
      destruct (onTrade_run (wrs index) querySource index trade f w Hf)
        as (w1 & e1 & R & T1 & Hw1).
      rewrite R. destruct (IH (S index) w1) as (w2 & e2 & R2 & I2 & T2).
      rewrite R2. eexists _, _. split; [reflexivity|]. split.
      * unfold accepted in Hw1.
        destruct (Js.set_has (uniqueWallets w) (buyerAddress f)) eqn:Hhas;
          [rewrite andb_false_r in Hw1; by destruct Hw1 as [-> _]|].
        destruct (Js.is_string _ _ && negb false && gt_zero _).
        -- destruct Hw1 as (U & Wb & L & _). by eapply ingested_one.
        -- by destruct Hw1 as [-> _].
      * sift. by rewrite T1, T2.
    + rewrite (onTrade_throws _ _ _ _ _ Ewf). simpl.
      eexists _, _. split; [reflexivity|]. split; [constructor | done].
Qed.

Lemma onMessage_run wrs data w :
  exists w' effs,
    onMessage wrs data w
      = (match data with
         | Unparsable => Throw SyntaxError
         | Json response =>
             if well_formed response then Normal tt else Throw TypeError
         end, w', effs)
    /\ ingested w w'
    /\ transfers effs = [].
Proof.
  unfold onMessage. destruct data as [|response]; simpl.
  { prog_unfold. eexists _, _. split; [reflexivity|]. split; [constructor | done]. }
  unfold well_formed. prog_unfold. rewrite !get_get_opt.
  destruct (Js.nullish response) eqn:Hresp; simpl.
  { eexists _, _. split; [reflexivity|]. split; [constructor | done]. }
  destruct (Js.is_string (Js.get_opt response "type") "connection_ack"); simpl.
  { eexists _, _. split; [reflexivity|]. split; [constructor | done]. }
  destruct (Js.is_string (Js.get_opt response "type") "data"); simpl.
  - rewrite !get_get_opt.
    destruct (Js.nullish (Js.get_opt response "payload")) eqn:Hpay; simpl.
    { eexists _, _. split; [reflexivity|]. split; [constructor | done]. }
    destruct (Js.truthy _) eqn:Htruthy; simpl.
    + destruct (Js.get_opt (Js.get_opt _ "Solana") "DEXTrades") as [p|trades|props] eqn:Hdex;
        simpl.
      * eexists _, _. split; [reflexivity|]. split; [constructor | done].
      * destruct (forEach_trade_run wrs
                    (if Js.is_string (Js.get_opt response "id") "1"
                     then "Meteora DBC" else "Post-Migration") trades 0 w)
          as (w' & effs & R & I & T).
        rewrite R. eexists _, _. split; [reflexivity|]. split; [done|].
        sift. by rewrite T.
      * rewrite to_string_printable. destruct (Js.printable _); simpl;
          eexists _, _; (split; [reflexivity|]); (split; [constructor | done]).
    + eexists _, _. split; [reflexivity|]. split; [constructor | done].
  - destruct (Js.is_string (Js.get_opt response "type") "ka"); simpl.
    { eexists _, _. split; [reflexivity|]. split; [constructor | done]. }
    destruct (Js.is_string (Js.get_opt response "type") "error"); simpl.
    + rewrite !get_get_opt.
      destruct (Js.nullish (Js.get_opt response "payload")) eqn:Hpay; simpl.
      { eexists _, _. split; [reflexivity|]. split; [constructor | done]. }
      eexists _, _. split; [reflexivity|]. split; [constructor | done].
    + eexists _, _. split; [reflexivity|]. split; [constructor | done].
Qed.

End Stream.

(** ** DedupTracker *)

Lemma set_has_snoc s b v :
  Js.set_has (s ++ [b]) v = Js.set_has s v || Js.same_value_zero v b.
Proof. unfold Js.set_has. rewrite existsb_app. simpl. by rewrite orb_false_r. Qed.

Lemma same_string_cell a b :
  Js.same_value_zero (PStr a) b = true <-> to_cell b = PStr a.
Proof.
  unfold Js.same_value_zero, Js.strict_eq.
  destruct b as [[| | | |s]| |]; simpl; try (split; discriminate).
  rewrite String.eqb_eq. split; [by intros -> | by intros [= ->]].
Qed.

Lemma new_trade_payer ata solAmount :
  Js.field (new_trade ata solAmount) "ATA" = to_cell ata.
Proof. unfold Js.field, new_trade. by rewrite lookup_insert_eq. Qed.

Lemma refund_update_payer link row :
  Js.field (refund_update link ∪ row) "ATA" = Js.field row "ATA".
Proof. unfold Js.field. by rewrite lookup_union_r. Qed.

Lemma tracks_start disk now ok :
  tracks (length (ledger (startup disk now ok))) (startup disk now ok).
Proof.
  split; [done|]. intros a.
  assert (Hempty : uniqueWallets (startup disk now ok) = []).
  { unfold startup, load_workbook, boot. prog_unfold. destruct disk; simpl; [done|].
    by destruct ok. }
  rewrite Hempty. split; [done|].
  intros (i & row & Hi & Hrow & _). apply lookup_lt_Some in Hrow. lia.
Qed.

Lemma tracks_append n0 w w1 buyer sol :
  tracks n0 w ->
  uniqueWallets w1 = uniqueWallets w ++ [buyer] ->
  workbook w1 = Some <$> (ledger w ++ [new_trade buyer sol]) ->
  tracks n0 w1.
Proof.
  intros [Hlen Hiff] U Wb.
  assert (HL : ledger w1 = ledger w ++ [new_trade buyer sol])
    by (apply (ledger_snoc _ _ _ Wb), new_trade_not_blank).
  split; [rewrite HL, length_app; lia|].
  intros a. rewrite U, set_has_snoc, orb_true_iff, Hiff, same_string_cell, HL.
  split.
  - intros [(i & row & Hi & Hrow & Hata) | Hnew].
    + exists i, row. repeat split; try done. by apply lookup_app_l_Some.
    + exists (length (ledger w)), (new_trade buyer sol). repeat split; [lia| |].
      * by rewrite lookup_app_r, Nat.sub_diag.
      * by rewrite new_trade_payer.
  - intros (i & row & Hi & Hrow & Hata).
    apply lookup_app_Some in Hrow as [Hrow | [Hge Hrow]].
    + left. by exists i, row.
    + right. apply list_lookup_singleton_Some in Hrow as [_ <-].
      by rewrite new_trade_payer in Hata.
Qed.

Lemma tracks_refund n0 w w' j row link :
  tracks n0 w ->
  uniqueWallets w' = uniqueWallets w ->
  ledger w !! j = Some row ->
  ledger w' = <[j := refund_update link ∪ row]> (ledger w) ->
  tracks n0 w'.
Proof.
  intros [Hlen Hiff] U Hrow HL. split; [by rewrite HL, length_insert|].
  intros a. rewrite U, Hiff, HL. split.
  - intros (i & r & Hi & Hr & Hata). destruct (decide (i = j)) as [->|Hne].
    + exists j, (refund_update link ∪ row). repeat split; [done| |].
      * apply list_lookup_insert_eq. by eapply lookup_lt_Some.
      * rewrite refund_update_payer. congruence.
    + exists i, r. repeat split; try done. by rewrite list_lookup_insert_ne.
  - intros (i & r & Hi & Hr & Hata). destruct (decide (i = j)) as [->|Hne].
    + exists j, row. repeat split; try done.
      rewrite list_lookup_insert_eq in Hr by (by eapply lookup_lt_Some).
      injection Hr as <-. by rewrite refund_update_payer in Hata.
    + exists i, r. repeat split; try done. by rewrite list_lookup_insert_ne in Hr.
Qed.

Lemma tracks_same n0 w w' :
  tracks n0 w ->
  uniqueWallets w' = uniqueWallets w -> workbook w' = workbook w ->
  tracks n0 w'.
Proof. unfold tracks, ledger. by intros ? -> ->. Qed.

Section Tracking.
Context `{Host}.

Lemma tracks_ingested n0 w w' : ingested w w' -> tracks n0 w -> tracks n0 w'.
Proof.
  induction 1 as [|w w1 w2 buyer sol _ U Wb _ _ IH]; [done|].
  intros Hw. apply IH. by eapply tracks_append.
Qed.

Lemma tracks_step n0 w w' : step w w' -> tracks n0 w -> tracks n0 w'.
Proof.
  intros Hstep Hw. destruct Hstep as [wrs data w | fuel env w | wr i link w Hi | ms w].
  - destruct (onMessage_run wrs data w) as (w' & effs & R & I & _).
    rewrite R. by eapply tracks_ingested.
  - destruct (processRefunds_run fuel env w) as (c & w' & effs & R & U & _ & L).
    rewrite R. unfold world_after; simpl.
    destruct L as [(Wb & _) | (_ & j & row & link & Hfp & HL)].
    + by eapply tracks_same.
    + apply first_pending_spec in Hfp as (Hrow & _). by eapply tracks_refund.
  - destruct (updateExcelRow_run wr i (refund_update link) w)
      as (w' & effs & R & Wb & U & _).
    rewrite R. unfold world_after; simpl.
    destruct (lookup_lt_is_Some_2 _ _ Hi) as [row Hrow].
    eapply tracks_refund; [done | done | exact Hrow |].
    apply (ledger_merge _ _ _ _ _ Hrow Wb), refund_update_not_blank.
  - by eapply tracks_same.
Qed.

Lemma storable_step_step w w' : storable_step w w' -> step w w'.
Proof. destruct 1; by constructor. Qed.

Lemma storable_run_reachable w w' : storable_run w w' -> reachable w w'.
Proof.
  unfold storable_run, reachable. induction 1 as [|w1 w2 w3 Hstep _ IH]; [done|].
  eapply rtc_l; [by apply storable_step_step | done].
Qed.

(** C2, as the script has it.  The set of buyers starts empty at every
    start of the script and is not rebuilt from the file.  From then on,
    on a feed whose buyer addresses are values the sheet can store, after
    every step of the run (a message handled, a refund cycle or its
    ledger update, time passing), a wallet address is in the set exactly
    when a record with that payer was appended to the ledger during this
    run, that is, stands at an index past the records loaded at start-up. *)
Theorem dedup_tracks_rows_of_this_run disk now ok w :
  storable_run (startup disk now ok) w ->
  forall a,
    Js.set_has (uniqueWallets w) (PStr a) = true <->
    exists i row,
      length (ledger (startup disk now ok)) <= i
      /\ ledger w !! i = Some row
      /\ Js.field row "ATA" = PStr a.
Proof.
  intros Hreach%storable_run_reachable.
  enough (Ht : tracks (length (ledger (startup disk now ok))) w) by apply Ht.
  revert w Hreach. unfold reachable.
  apply (rtc_ind_r (fun w => tracks (length (ledger (startup disk now ok))) w)).
  - apply tracks_start.
  - intros w1 w2 _ Hstep Hw1. by eapply tracks_step.
Qed.

(** C9, as the script has it.  The handler has no [try].  On a message
    whose buyer addresses are values the sheet can store, it completes
    without an exception exactly when the message parses and is
    well-formed; a data message without [data], [Solana] or [DEXTrades]
    then counts as carrying no trades.  An unparsable payload raises a
    SyntaxError out of the handler; a message or trade that lacks an
    object the handler reads through, and a trade one of whose logged
    values does not convert to a string, raises a TypeError. *)
Theorem handler_throws_on_malformed wrs data w :
  storable_feed data = true ->
  completion (onMessage wrs data w) =
  match data with
  | Unparsable => Throw SyntaxError
  | Json response =>
      if well_formed response then Normal tt else Throw TypeError
  end.
Proof.
  intros _. destruct (onMessage_run wrs data w) as (w' & effs & R & _). by rewrite R.
Qed.

(** C1, as the script has it.  There is no rollback.  When a trade of a
    buyer not yet in the set passes the tests and all three writes of the
    append fail, the buyer stays in the set, the record stays in the
    workbook in memory, and the file is as it was; a later event of the
    same buyer is skipped: it changes nothing and attempts no write. *)
Theorem failed_append_keeps_buyer_logged wr querySource index trade f a w :
  trade_fields trade = Normal f ->
  buyerAddress f = JPrim (PStr a) ->
  Js.is_string (buyMint f) TARGET_MINT_ADDRESS = true ->
  gt_zero (solAmount f) = true ->
  Js.set_has (uniqueWallets w) (PStr a) = false ->
  wr 0 = false -> wr 1 = false -> wr 2 = false ->
  let r := onTrade wr querySource index trade w in
  completion r = Normal tt
  /\ Js.set_has (uniqueWallets (world_after r)) (PStr a) = true
  /\ ledger (world_after r) = ledger w ++ [new_trade (PStr a) (solAmount f)]
  /\ file (world_after r) = file w
  /\ forall wr' querySource' index' trade' f',
       trade_fields trade' = Normal f' ->
       buyerAddress f' = JPrim (PStr a) ->
       let r' := onTrade wr' querySource' index' trade' (world_after r) in
       world_after r' = world_after r /\ writes (effects r') = [].
Proof.
  intros Hf Hbuyer Hmint Hsol Hnew W0 W1 W2 r. subst r.
  destruct (onTrade_run wr querySource index trade f w Hf) as (w1 & e1 & R & _ & Hw1).
  rewrite R. unfold completion, world_after; simpl.
  unfold accepted in Hw1. rewrite Hmint, Hbuyer, Hnew, Hsol in Hw1. simpl in Hw1.
  destruct Hw1 as (U & Wb & _ & F).
  unfold written in F. rewrite W0, W1, W2 in F. simpl in F.
  assert (Hlogged : Js.set_has (uniqueWallets w1) (PStr a) = true).
  { rewrite U, set_has_snoc. apply orb_true_iff. right. by apply same_string_cell. }
  split; [done|]. split; [done|]. split.
  { apply (ledger_snoc _ _ _ Wb), new_trade_not_blank. }
  split; [done|].
  intros wr' querySource' index' trade' f' Hf' Hbuyer'.
  destruct (onTrade_run wr' querySource' index' trade' f' w1 Hf')
    as (w2 & e2 & R2 & _ & Hw2).
  rewrite R2. unfold accepted in Hw2.
  rewrite Hbuyer', Hlogged, andb_false_r in Hw2. simpl in Hw2.
  by destruct Hw2 as [-> ?].
Qed.

End Tracking.

(** * The properties on sample inputs *)

Lemma failed_append_keeps_buyer_logged_witness :
  Js.set_has (uniqueWallets fresh_world) (PStr "W1") = false
  /\ Js.set_has (uniqueWallets after_failed_append) (PStr "W1") = true
  /\ file after_failed_append = file fresh_world.
Proof.
  assert (Hf : trade_fields w1_trade
               = Normal (sample_fields "W1" TARGET_MINT_ADDRESS SOL 1.5))
    by (vm_compute; reflexivity).
  assert (Hmint : Js.is_string (PStr TARGET_MINT_ADDRESS) TARGET_MINT_ADDRESS = true)
    by (vm_compute; reflexivity).
  assert (Hsol : @gt_zero sample_host (PNum 1.5) = true) by (vm_compute; reflexivity).
  assert (Hnew : Js.set_has (uniqueWallets fresh_world) (PStr "W1") = false)
    by (vm_compute; reflexivity).
  pose proof (@failed_append_keeps_buyer_logged sample_host no_write "Meteora DBC" 0
                w1_trade (sample_fields "W1" TARGET_MINT_ADDRESS SOL 1.5) "W1"
                fresh_world Hf eq_refl Hmint Hsol Hnew eq_refl eq_refl eq_refl)
    as (_ & Hin & _ & Hfile & _).
  split; [exact Hnew|]. split; [exact Hin | exact Hfile].
Defined.

Lemma dedup_tracks_rows_of_this_run_witness :
  @storable_run sample_host fresh_world after_first_message
  /\ (Js.set_has (uniqueWallets after_first_message) (PStr "W1") = true <->
      exists i row,
        length (ledger fresh_world) <= i
        /\ ledger after_first_message !! i = Some row
        /\ Js.field row "ATA" = PStr "W1").
Proof.
  assert (Hfeed : storable_feed (sample_data [w1_trade]) = true)
    by (vm_compute; reflexivity).
  assert (Hreach : @storable_run sample_host (startup None 0 true) after_first_message).
  { apply rtc_once.
    exact (@storable_message sample_host (fun _ => all_writes) (sample_data [w1_trade])
             fresh_world Hfeed). }
  split; [exact Hreach|].
  exact (@dedup_tracks_rows_of_this_run sample_host None 0%Z true after_first_message
           Hreach "W1").
Defined.

Lemma fixed_window_bound_witness :
  nondecreasing 0 burst
  /\ 1000%Z ∈ window_starts (mkLimiter 0 0) (passes (mkLimiter 0 0) burst)
  /\ (Z.of_nat (count_in 1000 RATE_LIMIT_INTERVAL
                  (acquisitions (passes (mkLimiter 0 0) burst)))
      <= RATE_LIMIT_PER_SECOND)%Z.
Proof.
  assert (Hnd : nondecreasing 0 burst) by (vm_compute; repeat split; discriminate).
  assert (Hin : 1000%Z ∈ window_starts (mkLimiter 0 0) (passes (mkLimiter 0 0) burst)).
  { apply list_elem_of_In. vm_compute. repeat (first [left; reflexivity | right]). }
  split; [exact Hnd|]. split; [exact Hin|].
  exact (fixed_window_bound 0 burst 1000 Hnd Hin).
Defined.

Lemma unaffordable_head_blocks_cycle_witness :
  ledger two_pending_world !! 1 = Some (new_trade (PStr "W2") (PNum 0.5))
  /\ pending (new_trade (PStr "W2") (PNum 0.5)) = true
  /\ (2 + 2 * @parseFloat sample_host
                 (Js.field (new_trade (PStr "W2") (PNum 0.5)) "sol_buy_amount")
       <=? 3000000000 / 1e9)%float = true
  /\ transfers (effects (@processRefunds sample_host 2 (sample_cycle 3000000000)
                           two_pending_world)) = []
  /\ writes (effects (@processRefunds sample_host 2 (sample_cycle 3000000000)
                        two_pending_world)) = []
  /\ workbook (world_after (@processRefunds sample_host 2 (sample_cycle 3000000000)
                              two_pending_world))
     = workbook two_pending_world.
Proof.
  assert (Hrow : ledger two_pending_world !! 0 = Some (new_trade (PStr "W1") (PNum 1)))
    by (vm_compute; reflexivity).
  assert (Hp : pending (new_trade (PStr "W1") (PNum 1)) = true)
    by (vm_compute; reflexivity).
  assert (Hfirst : forall k r, k < 0 -> ledger two_pending_world !! k = Some r ->
                               pending r = false) by (intros k r Hk; lia).
  assert (Hlt : (3000000000 / 1e9
                 <? 2 + 2 * @parseFloat sample_host
                              (Js.field (new_trade (PStr "W1") (PNum 1)) "sol_buy_amount"))%float
                = true) by (vm_compute; reflexivity).
  pose proof (@unaffordable_head_blocks_cycle sample_host 2 (sample_cycle 3000000000)
                two_pending_world 3000000000%float 0 (new_trade (PStr "W1") (PNum 1))
                eq_refl Hrow Hp Hfirst Hlt) as (Ht & Hwr & Hwb & _).
  split; [vm_compute; reflexivity|]. split; [vm_compute; reflexivity|].
  split; [vm_compute; reflexivity|].
  split; [exact Ht|]. split; [exact Hwr | exact Hwb].
Defined.

Lemma one_settlement_per_cycle_witness :
  length (transfers (effects (@processRefunds sample_host 2 (sample_cycle 10000000000)
                                one_pending_world))) <= 1.
Proof.
  exact (proj1 (@one_settlement_per_cycle sample_host 2 (sample_cycle 10000000000)
                  one_pending_world)).
Defined.

Lemma resolver_falls_back_to_input_witness :
  accountInfo missing_account = Resolves None
  /\ completion (@rateLimitedGetOwnerWallet sample_host 2 missing_account (PStr "W1")
                   fresh_world)
     = Normal (PStr "W1").
Proof.
  split; [reflexivity|].
  destruct (@resolver_falls_back_to_input sample_host 0 missing_account (PStr "W1")
              fresh_world) as (result & Hresult & Hmissing & _).
  rewrite Hresult. f_equal. apply Hmissing. reflexivity.
Defined.

Lemma affordability_threshold_witness :
  ledger one_pending_world = [new_trade (PStr "W1") (PNum 1)]
  /\ effects (@processRefunds sample_host 2 (sample_cycle 3000000000) one_pending_world)
     = [ Console Log CheckingRefunds; GetBalance;
         Console Log (TreasuryBalance 3);
         Console Log (InsufficientBalance 3 1 (PStr "W1") 4) ].
Proof.
  assert (Hl : ledger one_pending_world = [new_trade (PStr "W1") (PNum 1)])
    by (vm_compute; reflexivity).
  split; [exact Hl|].
  exact (proj1 (proj2 (@affordability_threshold sample_host) 2 (sample_cycle 3000000000)
                  one_pending_world eq_refl eq_refl Hl)).
Defined.


Lemma handler_throws_on_malformed_witness :
  storable_feed (sample_data [w1_trade]) = true
  /\ completion (@onMessage sample_host (fun _ => all_writes) (sample_data [w1_trade])
                   fresh_world)
     = Normal tt.
Proof.
  assert (Hfeed : storable_feed (sample_data [w1_trade]) = true)
    by (vm_compute; reflexivity).
  split; [exact Hfeed|].
  rewrite (@handler_throws_on_malformed sample_host (fun _ => all_writes)
             (sample_data [w1_trade]) fresh_world Hfeed).
  vm_compute. reflexivity.
Defined.


(** The scenarios of the design document, run on the samples. *)

(** A first qualifying trade of W1 puts one pending record in the ledger,
    and the file holds it. *)
Example first_trade_is_logged :
  ledger after_first_message = [new_trade (PStr "W1") (PNum 1.5)]
  /\ file after_first_message = Some (workbook after_first_message).
Proof. split; vm_compute; reflexivity. Qed.

(** A second qualifying trade of W1 changes nothing. *)
Example second_trade_is_skipped :
  world_after
    (@onMessage sample_host (fun _ => all_writes) (sample_data [w1_trade])
       after_first_message)
  = after_first_message.
Proof. vm_compute; reflexivity. Qed.

(** A trade whose buyer address has a member [toString] makes the log
    line of the callback throw: the handler ends with a TypeError, and
    nothing has changed. *)
Example unprintable_address_throws :
  well_formed_trade unprintable_trade = false
  /\ @onMessage sample_host (fun _ => all_writes) (sample_data [unprintable_trade])
       fresh_world
     = (Throw TypeError, fresh_world,
        [ Console Log (RawData "Meteora DBC"
                         (object [("Solana",
                                   object [("DEXTrades", JArr [unprintable_trade])])]));
          Console Log (ReceivedTrades "Meteora DBC") ]).
Proof. split; vm_compute; reflexivity. Qed.

(** With 10 SOL in the treasury the pending record of 1 SOL is settled:
    one transfer to the resolved owner, and the record is marked with the
    link of the confirmation. *)
Example affordable_record_is_settled :
  transfers (effects (@processRefunds sample_host 2 (sample_cycle 10000000000)
                        one_pending_world))
  = [SendAndConfirm (PStr "OwnerWallet") 1]
  /\ ledger (world_after (@processRefunds sample_host 2 (sample_cycle 10000000000)
                            one_pending_world))
     = [refund_update "https://solscan.io/tx/5VERYLONGSIGNATURE"
          ∪ new_trade (PStr "W1") (PNum 1)].
Proof. split; vm_compute; reflexivity. Qed.

(** * Where the design document and the script part ways *)

(** C1.  The document has the consumer take the buyer out of the set when
    the append fails.  W1's trade arrives on a fresh start and the disk
    refuses all three writes: W1 is in the set afterwards, while the file
    holds no record; and when the same trade arrives again, with a disk
    that would accept the write, it is skipped. *)
Lemma failed_append_not_rolled_back :
  Js.set_has (uniqueWallets fresh_world) (PStr "W1") = false
  /\ file after_failed_append = Some []
  /\ ~ (Js.set_has (uniqueWallets after_failed_append) (PStr "W1") = false)
  /\ world_after (@onTrade sample_host all_writes "Meteora DBC" 0 w1_trade
                    after_failed_append)
     = after_failed_append.
Proof.
  split; [vm_compute; reflexivity|].
  split; [vm_compute; reflexivity|].
  split; [vm_compute; discriminate|].
  vm_compute; reflexivity.
Qed.

(** C2.  The document has the set rebuilt from the ledger at start-up.
    After a restart over a file that holds a record of W1, the ledger has
    that record and the set does not have W1. *)
Lemma dedup_not_rebuilt_at_startup :
  ~ (Js.set_has (uniqueWallets restarted_world) (PStr "W1") = true <->
     exists i row,
       ledger restarted_world !! i = Some row /\ Js.field row "ATA" = PStr "W1").
Proof.
  intros [_ Hback].
  assert (Hset : Js.set_has (uniqueWallets restarted_world) (PStr "W1") = true).
  { apply Hback. exists 0, (new_trade (PStr "W1") (PNum 1.5)).
    split; vm_compute; reflexivity. }
  vm_compute in Hset. discriminate.
Qed.

(** C3.  The document asks for the bound on every span of one second.
    Nine callers pass the gate at 999 ms and nine more at 1000 ms, when the
    window that started at 0 has elapsed: eighteen acquisitions complete
    within the span that starts at 999 ms. *)
Lemma sliding_window_overrun :
  nondecreasing 0 burst
  /\ acquisitions (passes (mkLimiter 0 0) burst) = burst
  /\ ~ (Z.of_nat (count_in 999 RATE_LIMIT_INTERVAL
                   (acquisitions (passes (mkLimiter 0 0) burst)))
        <= RATE_LIMIT_PER_SECOND)%Z.
Proof.
  split; [vm_compute; repeat split; discriminate|].
  split; [vm_compute; reflexivity|].
  vm_compute. by intros Hle; apply Hle.
Qed.

(** C9.  The document has malformed events dropped and logged.  A payload
    that does not parse raises a SyntaxError out of the handler, and a
    data message whose one trade lacks [Trade] raises a TypeError. *)
Lemma malformed_message_throws :
  completion (@onMessage sample_host (fun _ => all_writes) Unparsable fresh_world)
  = Throw SyntaxError
  /\ completion (@onMessage sample_host (fun _ => all_writes)
                   (sample_data [truncated_trade]) fresh_world)
     = Throw TypeError.
Proof. split; vm_compute; reflexivity. Qed.



(** * Further properties of the script *)

(** ** LedgerStore: writing and reading back *)

Lemma persist_attempts done failed gaveUp wr w :
  let r := persist done failed gaveUp wr MAX_WRITE_RETRIES 0 w in
  writes (effects r)
    = (if wr 0 then [FileWrite (workbook w) true]
       else if wr 1 then [FileWrite (workbook w) false; FileWrite (workbook w) true]
       else [FileWrite (workbook w) false; FileWrite (workbook w) false;
             FileWrite (workbook w) (wr 2)])
  /\ clock (world_after r)
     = (clock w + (if wr 0%nat then 0 else if wr 1%nat then 1000 else 2000))%Z.
Proof.
  unfold MAX_WRITE_RETRIES. rewrite !persist_S. prog_unfold.
  unfold effects, world_after.
  destruct (wr 0); simpl; [split; [done | lia]|].
  destruct (wr 1); simpl; [split; [done | lia]|].
  destruct (wr 2); simpl; (split; [done | lia]).
Qed.









(** X2.  The retry loop of [appendTradeToExcel].  The write is attempted
    until it first succeeds and at most three times, each attempt with the
    workbook that has the new record; the script blocks for one second
    after a failed attempt unless it was the third: not at all, one second
    or two seconds in total. *)
Theorem write_retries_stop_at_first_success wr ata solAmount w :
  let r := appendTradeToExcel wr ata solAmount w in
  let ws := workbook (world_after r) in
  writes (effects r)
    = (if wr 0 then [FileWrite ws true]
       else if wr 1 then [FileWrite ws false; FileWrite ws true]
       else [FileWrite ws false; FileWrite ws false; FileWrite ws (wr 2)])
  /\ clock (world_after r)
     = (clock w + (if wr 0%nat then 0 else if wr 1%nat then 1000 else 2000))%Z.
Proof.
  intros r ws. subst r ws.
  unfold appendTradeToExcel. prog_unfold.
  match goal with |- context [persist ?a ?b ?c ?d _ _ ?g] =>
    pose proof (persist_attempts a b c d g) as [Hw Hc];
    destruct (persist_thrice a b c d g) as (w' & effs & E & (M1 & _) & _) end.
  rewrite E in Hw, Hc |- *. unfold effects, world_after in *. simpl in *.
  rewrite M1. split; [exact Hw | exact Hc].
Qed.




(** ** StreamConsumer: what is recorded and what is not *)

(** One property read of [trade_fields] on a trade whose reads succeed. *)
Ltac read_done :=
  match goal with
  | |- context [Js.and_then (Js.get ?o ?k) _] =>
      rewrite (get_get_opt o k);
      first
        [ match goal with
          | Hn : Js.nullish o = false |- _ => rewrite Hn; simpl
          end
        | destruct (Js.nullish o) eqn:?; simpl; [done|] ]
  end.

Ltac convert_done :=
  match goal with
  | |- context [Js.and_then (Js.to_string ?v) _] =>
      rewrite (to_string_printable v);
      destruct (Js.printable v) eqn:?; simpl; [|done]
  end.

(** A trade that was not paid for in SOL counts as paying nothing. *)
Lemma trade_fields_not_sol trade f :
  trade_fields trade = Normal f ->
  Js.includes SOL_MINT_ADDRESSES (sellCurrency f) = false ->
  solAmount f = JPrim (PNum 0).
Proof.
  unfold trade_fields. do 8 read_done.
  match goal with
  | |- context [Js.and_then (if ?b then _ else _) _] => destruct b eqn:Hsol; simpl
  end.
  all: repeat first [read_done | convert_done].
  all: intros [= <-]; simpl; congruence.
Qed.

Lemma ingested_grows w w' :
  ingested w w' ->
  limiter w' = limiter w
  /\ exists news,
       ledger w' = ledger w ++ new_trades news
       /\ uniqueWallets w' = uniqueWallets w ++ map fst news.
Proof.
  induction 1 as [w | w w1 w2 buyer sol _ U Wb L _ (IHl & news & IHw & IHu)].
  - split; [done|]. exists []. simpl. by rewrite !app_nil_r.
  - assert (HL : ledger w1 = ledger w ++ [new_trade buyer sol])
      by (apply (ledger_snoc _ _ _ Wb), new_trade_not_blank).
    split; [congruence|]. exists ((buyer, sol) :: news). simpl.
    rewrite IHw, IHu, HL, U, <- !app_assoc. done.
Qed.

Section StreamTheorems.
Context `{Host}.

Lemma gt_zero_zero : gt_zero (JPrim (PNum 0)) = false.
Proof. reflexivity. Qed.

(** X6.  A trade is recorded only if it passes every test of the
    callback.  A trade that buys another asset, or was not paid for in one
    of the two SOL mints, or whose amount is not above zero, or whose buyer
    is already in the set, changes nothing in the world and attempts no
    write; the callback completes without an exception. *)
Theorem unqualified_trade_not_recorded wr querySource index trade f w :
  trade_fields trade = Normal f ->
  Js.is_string (buyMint f) TARGET_MINT_ADDRESS = false
  \/ Js.includes SOL_MINT_ADDRESSES (sellCurrency f) = false
  \/ gt_zero (solAmount f) = false
  \/ Js.set_has (uniqueWallets w) (buyerAddress f) = true ->
  let r := onTrade wr querySource index trade w in
  completion r = Normal tt /\ world_after r = w /\ writes (effects r) = [].
Proof.
  intros Hf Hwhy r. subst r.
  destruct (onTrade_run wr querySource index trade f w Hf) as (w' & effs & R & _ & Hw).
  rewrite R. unfold completion, world_after, effects; simpl.
  assert (Hno : accepted f w = false).
  { unfold accepted. destruct Hwhy as [-> | [Hsol | [-> | ->]]].
    - done.
    - rewrite (trade_fields_not_sol trade f Hf Hsol), gt_zero_zero. apply andb_false_r.
    - apply andb_false_r.
    - simpl. by rewrite andb_false_r. }
  rewrite Hno in Hw. by destruct Hw as [-> ->].
Qed.

(** X7.  [forEach] has no [try] around its callback.  When a batch holds
    a trade out of which a property read or a conversion fails, after
    trades that are well formed and whose buyer addresses the sheet can
    store, the exception leaves the loop there: the trades before it were
    handled, with their effects, and the trades after it are not looked
    at. *)
Theorem malformed_trade_aborts_rest_of_batch wrs querySource good bad rest :
  forall index w,
  forallb well_formed_trade good = true ->
  forallb storable_buyer good = true ->
  well_formed_trade bad = false ->
  let r := forEach_trade wrs querySource good index w in
  forEach_trade wrs querySource (good ++ bad :: rest) index w
  = (Throw TypeError, world_after r, effects r)
  /\ completion r = Normal tt.
Proof.
  induction good as [|trade good IH]; intros index w Hgood Hstored Hbad r; subst r.
  - simpl app. rewrite forEach_trade_cons. unfold bind.
    rewrite (onTrade_throws _ _ _ _ _ Hbad). done.
  - simpl in Hgood, Hstored. apply andb_true_iff in Hgood as [Hwf Hgood].
    apply andb_true_iff in Hstored as [_ Hstored].
    simpl app. rewrite !forEach_trade_cons. unfold bind.
    pose proof (trade_fields_well_formed trade) as Hf. rewrite Hwf in Hf.
    destruct Hf as [f Hf].
    destruct (onTrade_run (wrs index) querySource index trade f w Hf)
      as (w1 & e1 & R & _).
    rewrite R. destruct (IH (S index) w1 Hgood Hstored Hbad) as [-> Hc].
    destruct (forEach_trade wrs querySource good (S index) w1) as [[c w2] e2].
    unfold completion in Hc. simpl in Hc. subst c. done.
Qed.

(** X8.  On a message whose buyer addresses are values the sheet can
    store, whether or not the handler throws on it, the handler submits
    no transfer and leaves the limiter alone, and the ledger and the set
    of buyers grow together: the records added are pending records, one
    for each buyer added to the set, in the same order, after the records
    and buyers that were there. *)
Theorem handler_grows_ledger_and_set_together wrs data w :
  storable_feed data = true ->
  let r := onMessage wrs data w in
  transfers (effects r) = []
  /\ limiter (world_after r) = limiter w
  /\ exists news,
       ledger (world_after r) = ledger w ++ new_trades news
       /\ uniqueWallets (world_after r) = uniqueWallets w ++ map fst news.
Proof.
  intros _ r. subst r.
  destruct (onMessage_run wrs data w) as (w' & effs & R & I & T).
  rewrite R. unfold effects, world_after; simpl.
  split; [done|]. by apply ingested_grows.
Qed.

(** X9.  Only "data" messages change anything.  A payload that does not
    parse, and a message of any other type (the acknowledgement, a
    keep-alive, an error, a type the script does not know, no type at
    all), leave the workbook, the set, the limiter, the file and the clock
    as they were, whether or not the handler throws on them. *)
Theorem only_data_messages_change_state wrs w :
  world_after (onMessage wrs Unparsable w) = w
  /\ forall response,
       Js.is_string (Js.get_opt response "type") "data" = false ->
       let r := onMessage wrs (Json response) w in
       world_after r = w /\ writes (effects r) = [].
Proof.
  split; [reflexivity|].
  intros response Hnot r. subst r. unfold onMessage. prog_unfold. rewrite !get_get_opt.
  destruct (Js.nullish response) eqn:Hresp; simpl; [done|].
  destruct (Js.is_string (Js.get_opt response "type") "connection_ack"); simpl; [done|].
  rewrite Hnot; simpl.
  destruct (Js.is_string (Js.get_opt response "type") "ka"); simpl; [done|].
  destruct (Js.is_string (Js.get_opt response "type") "error"); simpl; [|done].
  rewrite !get_get_opt.
  by destruct (Js.nullish (Js.get_opt response "payload")) eqn:Hpay.
Qed.

End StreamTheorems.

Lemma unqualified_trade_not_recorded_witness :
  trade_fields usdc_trade = Normal usdc_fields
  /\ Js.includes SOL_MINT_ADDRESSES (sellCurrency usdc_fields) = false
  /\ world_after (@onTrade sample_host all_writes "Meteora DBC" 0 usdc_trade fresh_world)
     = fresh_world.
Proof.
  assert (Hf : trade_fields usdc_trade = Normal usdc_fields) by (vm_compute; reflexivity).
  assert (Hsol : Js.includes SOL_MINT_ADDRESSES (sellCurrency usdc_fields) = false)
    by (vm_compute; reflexivity).
  split; [exact Hf|]. split; [exact Hsol|].
  exact (proj1 (proj2 (@unqualified_trade_not_recorded sample_host all_writes
                         "Meteora DBC" 0 usdc_trade usdc_fields fresh_world Hf
                         (or_intror (or_introl Hsol))))).
Defined.

Lemma malformed_trade_aborts_rest_of_batch_witness :
  forallb well_formed_trade [w1_trade] = true
  /\ forallb storable_buyer [w1_trade] = true
  /\ well_formed_trade truncated_trade = false
  /\ @forEach_trade sample_host (fun _ => all_writes) "Meteora DBC"
       ([w1_trade] ++ truncated_trade :: [w2_trade]) 0 fresh_world
     = (Throw TypeError,
        world_after (@forEach_trade sample_host (fun _ => all_writes) "Meteora DBC"
                       [w1_trade] 0 fresh_world),
        effects (@forEach_trade sample_host (fun _ => all_writes) "Meteora DBC"
                   [w1_trade] 0 fresh_world)).
Proof.
  assert (Hgood : forallb well_formed_trade [w1_trade] = true) by (vm_compute; reflexivity).
  assert (Hstored : forallb storable_buyer [w1_trade] = true)
    by (vm_compute; reflexivity).
  assert (Hbad : well_formed_trade truncated_trade = false) by (vm_compute; reflexivity).
  split; [exact Hgood|]. split; [exact Hstored|]. split; [exact Hbad|].
  exact (proj1 (@malformed_trade_aborts_rest_of_batch sample_host (fun _ => all_writes)
                  "Meteora DBC" [w1_trade] truncated_trade [w2_trade] 0 fresh_world
                  Hgood Hstored Hbad)).
Defined.

Lemma handler_grows_ledger_and_set_together_witness :
  storable_feed (sample_data [w1_trade; w2_trade]) = true
  /\ exists news,
       ledger (world_after (@onMessage sample_host (fun _ => all_writes)
                              (sample_data [w1_trade; w2_trade]) fresh_world))
       = ledger fresh_world ++ new_trades news
       /\ uniqueWallets (world_after (@onMessage sample_host (fun _ => all_writes)
                                        (sample_data [w1_trade; w2_trade]) fresh_world))
          = uniqueWallets fresh_world ++ map fst news.
Proof.
  assert (Hfeed : storable_feed (sample_data [w1_trade; w2_trade]) = true)
    by (vm_compute; reflexivity).
  split; [exact Hfeed|].
  exact (proj2 (proj2 (@handler_grows_ledger_and_set_together sample_host
                         (fun _ => all_writes) (sample_data [w1_trade; w2_trade])
                         fresh_world Hfeed))).
Defined.

Lemma only_data_messages_change_state_witness :
  Js.is_string (Js.get_opt keep_alive "type") "data" = false
  /\ world_after (@onMessage sample_host (fun _ => all_writes) (Json keep_alive)
                    after_first_message)
     = after_first_message.
Proof.
  assert (Hnot : Js.is_string (Js.get_opt keep_alive "type") "data" = false)
    by (vm_compute; reflexivity).
  split; [exact Hnot|].
  exact (proj1 (proj2 (@only_data_messages_change_state sample_host (fun _ => all_writes)
                         after_first_message) keep_alive Hnot)).
Defined.

(** ** The running script: what holds of the ledger throughout *)

Lemma refund_update_status link row :
  Js.field (refund_update link ∪ row) "status" = PNum 1.
Proof.
  unfold Js.field, refund_update.
  by rewrite (lookup_union_Some_l _ _ _ (PNum 1)) by done.
Qed.

Lemma refund_update_not_pending link row : pending (refund_update link ∪ row) = false.
Proof. unfold pending. by rewrite refund_update_status. Qed.




Section Run.
Context `{Host}.

(** What one step of the run does to the ledger: it adds records at the
    end, or marks one record refunded. *)
Lemma step_ledger w w' :
  step w w' ->
  (exists added, ledger w' = ledger w ++ added)
  \/ (exists j row link,
        ledger w !! j = Some row
        /\ ledger w' = <[j := refund_update link ∪ row]> (ledger w)).
Proof.
  intros Hstep. destruct Hstep as [wrs data w | fuel env w | wr i link w Hi | ms w].
  - destruct (onMessage_run wrs data w) as (w' & effs & R & I & _).
    rewrite R. unfold world_after; simpl.
    apply ingested_grows in I as (_ & news & HL & _). left. by eexists.
  - destruct (processRefunds_run fuel env w) as (c & w' & effs & R & U & _ & L).
    rewrite R. unfold world_after; simpl.
    destruct L as [(Wb & _) | (_ & j & row & link & Hfp & HL)].
    + left. exists []. unfold ledger. by rewrite Wb, app_nil_r.
    + right. apply first_pending_spec in Hfp as (Hrow & _). by exists j, row, link.
  - destruct (updateExcelRow_run wr i (refund_update link) w)
      as (w' & effs & R & Wb & U & _).
    rewrite R. unfold world_after; simpl.
    destruct (lookup_lt_is_Some_2 _ _ Hi) as [row Hrow].
    right. exists i, row, link. split; [done|].
    apply (ledger_merge _ _ _ _ _ Hrow Wb), refund_update_not_blank.
  - left. exists []. by rewrite app_nil_r.
Qed.

Section Rows.

(** A relation between a record and what it has become that holds of a
    record left alone, composes, and holds when the record is marked
    refunded. *)
Variable R : Row -> Row -> Prop.
Hypothesis R_refl : forall row, R row row.
Hypothesis R_trans : forall a b c, R a b -> R b c -> R a c.
Hypothesis R_refund : forall link row, R row (refund_update link ∪ row).

Lemma rows_along_run w w' :
  reachable w w' ->
  forall i row, ledger w !! i = Some row ->
  exists row', ledger w' !! i = Some row' /\ R row row'.
Proof.
  revert w'. unfold reachable.
  apply (rtc_ind_r (fun w' => forall i row, ledger w !! i = Some row ->
                      exists row', ledger w' !! i = Some row' /\ R row row')).
  - intros i row Hrow. by exists row.
  - intros w1 w2 _ Hstep IH i row Hrow.
    destruct (IH i row Hrow) as (row1 & Hrow1 & HR).
    destruct (step_ledger w1 w2 Hstep) as [(added & ->) | (j & rowj & link & Hj & ->)].
    + exists row1. split; [by apply lookup_app_l_Some | done].
    + destruct (decide (i = j)) as [->|Hne].
      * exists (refund_update link ∪ rowj). split.
        -- apply list_lookup_insert_eq. by eapply lookup_lt_Some.
        -- assert (rowj = row1) as -> by congruence. by eapply R_trans.
      * exists row1. split; [by rewrite list_lookup_insert_ne | done].
Qed.

End Rows.




(** X11.  Refunded is final.  A record whose status is 1 keeps status 1
    along any run of the script: nothing sets a status back to pending. *)
Theorem refunded_is_final w w' i row :
  reachable w w' ->
  ledger w !! i = Some row ->
  Js.field row "status" = PNum 1 ->
  exists row', ledger w' !! i = Some row' /\ Js.field row' "status" = PNum 1.
Proof.
  intros Hreach Hrow Hst.
  assert (Hrows : exists row', ledger w' !! i = Some row'
            /\ (Js.field row "status" = PNum 1 -> Js.field row' "status" = PNum 1)).
  { apply (rows_along_run
             (fun row row' => Js.field row "status" = PNum 1 ->
                              Js.field row' "status" = PNum 1)) with (w := w);
      simpl; try done.
    - intros a b c Hab Hbc Ha. eauto.
    - intros link r _. apply refund_update_status. }
  destruct Hrows as (row' & Hrow' & HR). exists row'. eauto.
Qed.



End Run.


Lemma refunded_is_final_witness :
  @reachable sample_host settled_world
    (world_after (@onMessage sample_host (fun _ => all_writes) (sample_data [w2_trade])
                    settled_world))
  /\ Js.field (refund_update "https://solscan.io/tx/5VERYLONGSIGNATURE"
                 ∪ new_trade (PStr "W1") (PNum 1)) "status" = PNum 1
  /\ exists row',
       ledger (world_after (@onMessage sample_host (fun _ => all_writes)
                              (sample_data [w2_trade]) settled_world)) !! 0 = Some row'
       /\ Js.field row' "status" = PNum 1.
Proof.
  assert (Hreach : @reachable sample_host settled_world
            (world_after (@onMessage sample_host (fun _ => all_writes)
                            (sample_data [w2_trade]) settled_world))).
  { apply rtc_once.
    exact (@step_message sample_host (fun _ => all_writes) (sample_data [w2_trade])
             settled_world). }
  assert (Hrow : ledger settled_world !! 0
                 = Some (refund_update "https://solscan.io/tx/5VERYLONGSIGNATURE"
                           ∪ new_trade (PStr "W1") (PNum 1)))
    by (vm_compute; reflexivity).
  assert (Hst : Js.field (refund_update "https://solscan.io/tx/5VERYLONGSIGNATURE"
                            ∪ new_trade (PStr "W1") (PNum 1)) "status" = PNum 1)
    by (vm_compute; reflexivity).
  split; [exact Hreach|]. split; [exact Hst|].
  exact (@refunded_is_final sample_host settled_world _ 0 _ Hreach Hrow Hst).
Defined.



(** ** RefundEngine: how a cycle ends *)

Lemma first_pending_none rows :
  first_pending rows = None <-> Forall (fun row => pending row = false) rows.
Proof.
  unfold first_pending. generalize 0. induction rows as [|r rows IH]; intros i; simpl.
  - split; [constructor | done].
  - destruct (pending r) eqn:P.
    + split; [done|]. intros F. apply Forall_cons in F as [? _]. congruence.
    + rewrite IH. split; [by constructor | by intros [_ ?]%Forall_cons].
Qed.

Section RefundOutcomes.
Context `{Host}.

(** The two ways a pending row that the treasury can afford comes out of
    [refund_row]: nothing is written, for one of five reasons; or the
    transfer is confirmed and the row is marked. *)
Lemma refund_row_cases fuel env treasuryBalance j row w :
  ledger w !! j = Some row ->
  let ata := Js.field row "ATA" in
  let sol := parseFloat (Js.field row "sol_buy_amount") in
  let owner := resolution (resolver env) ata in
  (requiredBalance sol <=? treasuryBalance)%float = true ->
  exists c w' effs,
    refund_row fuel env treasuryBalance j row w = (c, w', effs)
    /\ ((workbook w' = workbook w /\ file w' = file w /\ writes effs = []
         /\ (c = Normal tt \/ c = OutOfFuel)
         /\ (completion (rateLimitedGetOwnerWallet fuel (resolver env) ata w) = OutOfFuel
             \/ Js.strict_eq owner ata = true
             \/ PublicKey_valid owner = false
             \/ transfer_encodable sol = false
             \/ confirmation env = Rejects))
        \/ (c = Normal tt
            /\ Js.strict_eq owner ata = false
            /\ PublicKey_valid owner = true
            /\ transfer_encodable sol = true
            /\ exists signature,
                 confirmation env = Resolves signature
                 /\ transfers effs = [SendAndConfirm owner sol]
                 /\ ledger w' =
                      <[j := refund_update (String.append "https://solscan.io/tx/" signature)
                               ∪ row]> (ledger w)
                 /\ file w' = (if written (update_writes env)
                               then Some (workbook w') else file w))).
Proof.
  intros Hrow ata sol owner Haff. subst ata sol owner. unfold refund_row.
  rewrite Haff. unfold bind at 1.
  destruct (rateLimitedGetOwnerWallet_frame fuel (resolver env) (Js.field row "ATA") w)
    as (c & w1 & e1 & R & Wb1 & U1 & F1 & C1 & Q1).
  rewrite R. unfold completion; simpl.
  pose proof (quiet_no_transfers _ Q1) as T1.
  pose proof (quiet_no_writes _ Q1) as Wr1.
  destruct C1 as [-> | ->].
  { eexists _, _, _. split; [reflexivity|]. left. repeat split; eauto. }
  destruct (Js.strict_eq _ _) eqn:Hsame.
  { prog_unfold. eexists _, _, _. split; [reflexivity|]. left.
    sift. rewrite Wr1. repeat split; eauto. }
  unfold new_PublicKey, await_rpc. prog_unfold.
  destruct (PublicKey_valid _) eqn:Hvalid; simpl.
  2: { eexists _, _, _. split; [reflexivity|]. left.
       sift. rewrite Wr1. repeat split; eauto. }
  destruct (transfer_encodable _) eqn:Henc; simpl.
  2: { eexists _, _, _. split; [reflexivity|]. left.
       sift. rewrite Wr1. repeat split; eauto 6. }
  destruct (confirmation env) as [signature|] eqn:Hconf; simpl.
  2: { eexists _, _, _. split; [reflexivity|]. left.
       sift. rewrite Wr1. repeat split; eauto 6. }
  match goal with |- context [updateExcelRow ?a ?b ?c ?d] =>
    destruct (updateExcelRow_run a b c d) as (w3 & e3 & E3 & Wb3 & U3 & L3 & F3 & T3) end.
  rewrite E3. apply no_transfers in T3. simpl in U3, L3, F3.
  assert (HL : ledger w3 =
               <[j := refund_update (String.append "https://solscan.io/tx/" signature) ∪ row]> (ledger w)).
  { assert (Hl : ledger (elapse (Z.of_nat (confirmation_latency env)) w1) = ledger w)
      by (unfold ledger; simpl; by rewrite Wb1).
    assert (Hrow1 : ledger (elapse (Z.of_nat (confirmation_latency env)) w1) !! j
                    = Some row) by (by rewrite Hl).
    rewrite <- Hl.
    apply (ledger_merge _ _ _ _ _ Hrow1 Wb3), refund_update_not_blank. }
  assert (HF : file w3 = if written (update_writes env) then Some (workbook w3) else file w).
  { rewrite F3. by destruct (written _). }
  destruct (negb (Js.truthy (PBool (written (update_writes env))))); simpl.
  all: eexists _, _, _; (split; [reflexivity|]); right.
  all: sift; rewrite T1, T3; simpl.
  all: repeat split; try done.
  all: exists signature; repeat split; done.
Qed.

(** A cycle up to the row it stops at. *)
Lemma processRefunds_head fuel env w lamports j row :
  ENABLE_REFUNDS = true ->
  balance env = Resolves lamports ->
  first_pending (ledger w) = Some (j, row) ->
  processRefunds fuel env w =
  let r := refund_row fuel env (lamports / 1e9)%float j row
             (elapse (Z.of_nat (balance_latency env)) w) in
  (completion r, world_after r,
   [Console Log CheckingRefunds; GetBalance;
    Console Log (TreasuryBalance (lamports / 1e9))] ++ effects r).
Proof.
  intros En Hbal Hfp. unfold processRefunds. rewrite En; simpl.
  unfold await_rpc. prog_unfold. rewrite Hbal; simpl.
  rewrite refund_scan_first. fold (first_pending (sheet_to_json (workbook w))).
  fold (ledger w). rewrite Hfp.
  by destruct (refund_row _ _ _ _ _ _) as [[c w'] effs].
Qed.

(** X14.  The first pending record is settled when everything goes
    well.  With refunds enabled, a balance that covers [2 + 2 * amount]
    for the first pending record, an owner resolved to an address other
    than the payer's that [PublicKey] accepts, and a transfer that the
    cluster confirms, the cycle completes, submits exactly one transfer,
    of the record's amount to the resolved owner, and marks that record
    refunded with the link of the confirmation; no record up to it is
    pending afterwards, so the next cycle moves on. *)
Theorem affordable_head_is_settled n env w lamports j row signature :
  ENABLE_REFUNDS = true ->
  balance env = Resolves lamports ->
  first_pending (ledger w) = Some (j, row) ->
  let ata := Js.field row "ATA" in
  let sol := parseFloat (Js.field row "sol_buy_amount") in
  let owner := resolution (resolver env) ata in
  (2 + 2 * sol <=? lamports / 1e9)%float = true ->
  Js.strict_eq owner ata = false ->
  PublicKey_valid owner = true ->
  transfer_encodable sol = true ->
  confirmation env = Resolves signature ->
  let r := processRefunds (S (S n)) env w in
  let link := String.append "https://solscan.io/tx/" signature in
  completion r = Normal tt
  /\ transfers (effects r) = [SendAndConfirm owner sol]
  /\ ledger (world_after r) = <[j := refund_update link ∪ row]> (ledger w)
  /\ (forall k r', k <= j -> ledger (world_after r) !! k = Some r' -> pending r' = false).
Proof.
  intros En Hbal Hfp ata sol owner Haff Hsame Hvalid Henc Hconf r link. subst r link.
  rewrite (processRefunds_head _ _ _ _ _ _ En Hbal Hfp).
  pose proof Hfp as Hfp'. apply first_pending_spec in Hfp' as (Hrow & Hp & Hbefore).
  destruct (refund_row_cases (S (S n)) env (lamports / 1e9)%float j row
              (elapse (Z.of_nat (balance_latency env)) w) Hrow Haff)
    as (c & w' & effs & R
        & [(_ & _ & _ & _ & Hwhy) | (-> & _ & _ & _ & sig & Hsig & T & HL & _)]).
  { exfalso. fold ata sol owner in Hwhy.
    rewrite rateLimitedGetOwnerWallet_returns in Hwhy.
    destruct Hwhy as [? | [? | [? | [? | ?]]]]; congruence. }
  rewrite R. unfold completion, world_after, effects; simpl.
  assert (sig = signature) as -> by congruence.
  split; [done|]. split; [exact T|]. split; [exact HL|].
  intros k r' Hk Hr'. rewrite HL in Hr'.
  destruct (decide (k = j)) as [->|Hne].
  - rewrite list_lookup_insert_eq in Hr' by (by eapply lookup_lt_Some).
    injection Hr' as <-. apply refund_update_not_pending.
  - rewrite list_lookup_insert_ne in Hr' by done. apply (Hbefore k); [lia | done].
Qed.




(** X18.  Nothing pending, nothing done.  On a ledger without a pending
    record, the empty ledger included, an enabled cycle asks for the
    balance, reports that no refund is pending, and changes nothing but
    the time the balance query took. *)
Theorem nothing_pending_nothing_done fuel env w lamports :
  ENABLE_REFUNDS = true ->
  balance env = Resolves lamports ->
  Forall (fun row => pending row = false) (ledger w) ->
  processRefunds fuel env w
  = (Normal tt, elapse (Z.of_nat (balance_latency env)) w,
     [ Console Log CheckingRefunds; GetBalance;
       Console Log (TreasuryBalance (lamports / 1e9));
       Console Log NoMorePending ]).
Proof.
  intros En Hbal Hnone. apply first_pending_none in Hnone.
  unfold processRefunds, await_rpc. rewrite En; simpl. prog_unfold. rewrite Hbal; simpl.
  rewrite refund_scan_first. fold (first_pending (sheet_to_json (workbook w))).
  fold (ledger w). rewrite Hnone. reflexivity.
Qed.

(** X19.  The balance query is awaited outside of any [try].  When it is
    rejected, the cycle itself is rejected with that error, before any
    record is looked at: nothing is logged but the start of the check. *)
Theorem rejected_balance_rejects_cycle fuel env w :
  ENABLE_REFUNDS = true ->
  balance env = Rejects ->
  processRefunds fuel env w
  = (Throw RpcError, elapse (Z.of_nat (balance_latency env)) w,
     [Console Log CheckingRefunds; GetBalance]).
Proof.
  intros En Hbal. unfold processRefunds, await_rpc. rewrite En, Hbal. reflexivity.
Qed.

(** X20.  A cycle that starts after a record was marked refunded does not
    pay it.  Once a record has status 1, a cycle that reads its snapshot
    of the ledger after any further steps of the run either submits no
    transfer, or submits the one transfer of the record that is first
    pending in that snapshot, which is another record.  A cycle that read
    its snapshot before the record was marked is not covered. *)
Theorem later_cycle_skips_refunded_record w w' i row fuel env :
  reachable w w' ->
  ledger w !! i = Some row ->
  Js.field row "status" = PNum 1 ->
  let r := processRefunds fuel env w' in
  transfers (effects r) = []
  \/ exists j row' to,
       j <> i
       /\ first_pending (ledger w') = Some (j, row')
       /\ transfers (effects r)
          = [SendAndConfirm to (parseFloat (Js.field row' "sol_buy_amount"))].
Proof.
  intros Hreach Hrow Hst r. subst r.
  assert (Hrows : exists row', ledger w' !! i = Some row'
            /\ (Js.field row "status" = PNum 1 -> Js.field row' "status" = PNum 1)).
  { apply (rows_along_run
             (fun row row' => Js.field row "status" = PNum 1 ->
                              Js.field row' "status" = PNum 1)) with (w := w);
      simpl; try done.
    - intros a b c Hab Hbc Ha. eauto.
    - intros link r _. apply refund_update_status. }
  destruct Hrows as (rowi & Hrowi & Hsti). specialize (Hsti Hst).
  destruct (processRefunds_run fuel env w') as (c & w'' & effs & R & _ & T & _).
  rewrite R. unfold effects; simpl.
  destruct T as [T | (lamports & j & row' & to & _ & _ & Hfp & _ & T)]; [by left|].
  right. exists j, row', to. split; [|done].
  intros ->. apply first_pending_spec in Hfp as (Hj & Hp & _).
  assert (row' = rowi) as -> by congruence.
  unfold pending in Hp. rewrite Hsti in Hp. discriminate.
Qed.
End RefundOutcomes.

Lemma affordable_head_is_settled_witness :
  first_pending (ledger one_pending_world) = Some (0, new_trade (PStr "W1") (PNum 1))
  /\ completion (@processRefunds sample_host 2 (sample_cycle 10000000000)
                   one_pending_world) = Normal tt
  /\ ledger (world_after (@processRefunds sample_host 2 (sample_cycle 10000000000)
                            one_pending_world))
     = <[0 := refund_update "https://solscan.io/tx/5VERYLONGSIGNATURE"
               ∪ new_trade (PStr "W1") (PNum 1)]> (ledger one_pending_world).
Proof.
  assert (Hfp : first_pending (ledger one_pending_world)
                = Some (0, new_trade (PStr "W1") (PNum 1))) by (vm_compute; reflexivity).
  assert (Haff : (2 + 2 * @parseFloat sample_host
                            (Js.field (new_trade (PStr "W1") (PNum 1)) "sol_buy_amount")
                  <=? 10000000000 / 1e9)%float = true) by (vm_compute; reflexivity).
  assert (Hsame : Js.strict_eq
                    (@resolution sample_host (resolver (sample_cycle 10000000000))
                       (Js.field (new_trade (PStr "W1") (PNum 1)) "ATA"))
                    (Js.field (new_trade (PStr "W1") (PNum 1)) "ATA") = false)
    by (vm_compute; reflexivity).
  pose proof (@affordable_head_is_settled sample_host 0 (sample_cycle 10000000000)
                one_pending_world 10000000000%float 0 (new_trade (PStr "W1") (PNum 1))
                "5VERYLONGSIGNATURE" eq_refl eq_refl Hfp Haff Hsame eq_refl eq_refl eq_refl)
    as (Hc & _ & HL & _).
  split; [exact Hfp|]. split; [exact Hc | exact HL].
Defined.




Lemma nothing_pending_nothing_done_witness :
  Forall (fun row => pending row = false) (ledger settled_world)
  /\ @processRefunds sample_host 2 (sample_cycle 10000000000) settled_world
     = (Normal tt, elapse 40 settled_world,
        [ Console Log CheckingRefunds; GetBalance;
          Console Log (TreasuryBalance (10000000000 / 1e9));
          Console Log NoMorePending ]).
Proof.
  assert (Hnone : Forall (fun row => pending row = false) (ledger settled_world)).
  { apply first_pending_none. vm_compute. reflexivity. }
  split; [exact Hnone|].
  exact (@nothing_pending_nothing_done sample_host 2 (sample_cycle 10000000000)
           settled_world 10000000000%float eq_refl eq_refl Hnone).
Defined.

Lemma rejected_balance_rejects_cycle_witness :
  balance balance_down = Rejects
  /\ completion (@processRefunds sample_host 2 balance_down one_pending_world)
     = Throw RpcError.
Proof.
  split; [reflexivity|].
  exact (f_equal (fun r : Run unit => completion r)
           (@rejected_balance_rejects_cycle sample_host 2 balance_down one_pending_world
              eq_refl eq_refl)).
Defined.

Lemma later_cycle_skips_refunded_record_witness :
  @reachable sample_host settled_world
    (world_after (@onMessage sample_host (fun _ => all_writes) (sample_data [w2_trade])
                    settled_world))
  /\ (transfers (effects (@processRefunds sample_host 2 (sample_cycle 10000000000)
                            (world_after (@onMessage sample_host (fun _ => all_writes)
                                            (sample_data [w2_trade]) settled_world)))) = []
      \/ exists j row' to,
           j <> 0
           /\ first_pending
                (ledger (world_after (@onMessage sample_host (fun _ => all_writes)
                                        (sample_data [w2_trade]) settled_world)))
              = Some (j, row')
           /\ transfers (effects (@processRefunds sample_host 2 (sample_cycle 10000000000)
                                    (world_after (@onMessage sample_host
                                                    (fun _ => all_writes)
                                                    (sample_data [w2_trade])
                                                    settled_world))))
              = [SendAndConfirm to (@parseFloat sample_host
                                      (Js.field row' "sol_buy_amount"))]).
Proof.
  assert (Hreach : @reachable sample_host settled_world
            (world_after (@onMessage sample_host (fun _ => all_writes)
                            (sample_data [w2_trade]) settled_world))).
  { apply rtc_once.
    exact (@step_message sample_host (fun _ => all_writes) (sample_data [w2_trade])
             settled_world). }
  assert (Hrow : ledger settled_world !! 0
                 = Some (refund_update "https://solscan.io/tx/5VERYLONGSIGNATURE"
                           ∪ new_trade (PStr "W1") (PNum 1)))
    by (vm_compute; reflexivity).
  assert (Hst : Js.field (refund_update "https://solscan.io/tx/5VERYLONGSIGNATURE"
                            ∪ new_trade (PStr "W1") (PNum 1)) "status" = PNum 1)
    by (vm_compute; reflexivity).
  split; [exact Hreach|].
  exact (@later_cycle_skips_refunded_record sample_host settled_world _ 0 _ 2
           (sample_cycle 10000000000) Hreach Hrow Hst).
Defined.

(** ** RateLimiter: the counter, the wait and the worst second *)

Lemma count_in_le from len from' len' ts :
  Forall (fun t => (from <= t < from + len)%Z -> (from' <= t < from' + len')%Z) ts ->
  count_in from len ts <= count_in from' len' ts.
Proof.
  induction 1 as [|t ts Ht _ IH]; simpl; [done|].
  destruct (from <=? t)%Z eqn:A, (t <? from + len)%Z eqn:B; simpl; try lia.
  destruct (from' <=? t)%Z eqn:C, (t <? from' + len')%Z eqn:D; simpl; lia.
Qed.

(** Of what falls in a second that starts at [from], the part before
    [ws] and the part in the window that starts at [ws]. *)
Lemma count_in_split from ws ts :
  Forall (fun t => (t < ws + 1000)%Z) ts ->
  count_in from 1000 ts
  <= count_in from (Z.min 1000 (ws - from)) ts + count_in ws 1000 ts.
Proof.
  induction 1 as [|t ts Ht _ IH]; simpl; [done|].
  destruct (from <=? t)%Z eqn:A, (t <? from + 1000)%Z eqn:B; simpl; try lia.
  destruct (t <? from + Z.min 1000 (ws - from))%Z eqn:C; simpl; [lia|].
  destruct (ws <=? t)%Z eqn:D, (t <? ws + 1000)%Z eqn:E; simpl; lia.
Qed.

Lemma spanned_bound from l past lo :
  spanned from l past lo ->
  (Z.of_nat (count_in from RATE_LIMIT_INTERVAL past) <= 2 * RATE_LIMIT_PER_SECOND)%Z.
Proof.
  unfold spanned, tallied, RATE_LIMIT_INTERVAL, RATE_LIMIT_PER_SECOND.
  intros ((Hc & Htally & _ & Hpast) & Hbefore & Hinto).
  destruct (decide (from + 1000 <= lastResetTime l)%Z) as [Hle|Hgt]; [by apply Hbefore|].
  specialize (Hinto ltac:(lia)).
  pose proof (count_in_split from (lastResetTime l) past Hpast). lia.
Qed.

Lemma sliding_bounded from nows : forall l past lo,
  spanned from l past lo ->
  nondecreasing lo nows ->
  (Z.of_nat (count_in from RATE_LIMIT_INTERVAL (past ++ acquisitions (passes l nows)))
   <= 2 * RATE_LIMIT_PER_SECOND)%Z.
Proof.
  induction nows as [|now rest IH]; intros l past lo Hs Hnd.
  - simpl. rewrite app_nil_r. by eapply spanned_bound.
  - destruct Hnd as [Hlo Hrest]. simpl.
    pose proof (spanned_bound _ _ _ _ Hs) as Hsofar.
    destruct Hs as ((Hc & Htally & Hlast & Hpast) & Hbefore & Hinto).
    unfold RATE_LIMIT_INTERVAL, RATE_LIMIT_PER_SECOND
      in Hc, Htally, Hpast, Hbefore, Hinto, Hsofar.
    destruct (acquire_cases now l) as [(Hel & E) | [(Hin & Hfull & E) | (Hin & Hfree & E)]];
      rewrite E; simpl.
    + (* the window has elapsed: the counter restarts at this pass *)
      unfold RATE_LIMIT_INTERVAL in Hel.
      replace (past ++ now :: acquisitions (passes (mkLimiter 1 now) rest))
        with ((past ++ [now]) ++ acquisitions (passes (mkLimiter 1 now) rest))
        by (by rewrite <- app_assoc).
      apply (IH _ _ now); [|done].
      unfold spanned, tallied, RATE_LIMIT_INTERVAL, RATE_LIMIT_PER_SECOND; simpl.
      split; [|split].
      * repeat split; try lia.
        -- rewrite count_in_app, count_in_earlier; simpl.
           ++ destruct (now <=? now)%Z eqn:?, (now <? now + 1000)%Z eqn:?; simpl; lia.
           ++ eapply Forall_impl; [exact Hpast|]. simpl; intros; lia.
        -- apply Forall_app. split; [|repeat constructor; lia].
           eapply Forall_impl; [exact Hpast|]. simpl; intros; lia.
      * intros Hends. rewrite count_in_app. simpl.
        destruct (from <=? now)%Z eqn:?, (now <? from + 1000)%Z eqn:?; simpl; lia.
      * intros Hreach. rewrite count_in_app. simpl.
        destruct (now <? from + Z.min 1000 (now - from))%Z eqn:?; [lia|].
        rewrite andb_false_r. simpl.
        assert (count_in from (Z.min 1000 (now - from)) past
                <= count_in (lastResetTime l) 1000 past); [|lia].
        apply count_in_le. eapply Forall_impl; [exact Hpast|]. simpl; intros; lia.
    + (* the window is full: the caller is turned away *)
      unfold RATE_LIMIT_INTERVAL in Hin.
      apply (IH _ _ now); [|done].
      unfold spanned, tallied, RATE_LIMIT_INTERVAL, RATE_LIMIT_PER_SECOND.
      repeat split; try done; lia.
    + (* a slot is free *)
      unfold RATE_LIMIT_INTERVAL, RATE_LIMIT_PER_SECOND in Hin, Hfree.
      replace (past ++ now :: acquisitions
                 (passes (mkLimiter (requestCount l + 1) (lastResetTime l)) rest))
        with ((past ++ [now]) ++ acquisitions
                (passes (mkLimiter (requestCount l + 1) (lastResetTime l)) rest))
        by (by rewrite <- app_assoc).
      apply (IH _ _ now); [|done].
      unfold spanned, tallied, RATE_LIMIT_INTERVAL, RATE_LIMIT_PER_SECOND; simpl.
      split; [|split].
      * repeat split; try lia.
        -- rewrite count_in_app; simpl.
           destruct (lastResetTime l <=? now)%Z eqn:?,
                    (now <? lastResetTime l + 1000)%Z eqn:?; simpl; lia.
        -- apply Forall_app. split; [done|]. repeat constructor; lia.
      * intros Hends. rewrite count_in_app. simpl.
        destruct (from <=? now)%Z eqn:?, (now <? from + 1000)%Z eqn:?; simpl; lia.
      * intros Hreach. rewrite count_in_app. simpl.
        destruct (now <? from + Z.min 1000 (lastResetTime l - from))%Z eqn:?; [lia|].
        rewrite andb_false_r. simpl. lia.
Qed.

(** X21.  A caller that is turned away is told a wait after which it gets
    through.  When the gate is full at a time not before the start of its
    window, the limiter is left as it was, the wait is more than zero and
    at most one second, and a pass at any time from the end of the wait on
    is admitted, as the first of a new window. *)
Theorem turned_away_caller_is_admitted_after_wait now l l' ms :
  acquire now l = (l', Some ms) ->
  (lastResetTime l <= now)%Z ->
  l' = l
  /\ (0 < ms <= RATE_LIMIT_INTERVAL)%Z
  /\ forall now', (now + ms <= now')%Z -> acquire now' l' = (mkLimiter 1 now', None).
Proof.
  intros E Hlast. apply acquire_wait in E as (-> & -> & Hlt).
  split; [done|]. split; [unfold RATE_LIMIT_INTERVAL in *; lia|].
  intros now' Hnow'. apply acquire_elapsed. lia.
Qed.

Lemma turned_away_caller_is_admitted_after_wait_witness :
  acquire 400 (mkLimiter 9 0) = (mkLimiter 9 0, Some 600%Z)
  /\ acquire 1000 (mkLimiter 9 0) = (mkLimiter 1 1000, None).
Proof.
  split; [reflexivity|].
  refine (proj2 (proj2 (turned_away_caller_is_admitted_after_wait 400 (mkLimiter 9 0)
                          (mkLimiter 9 0) 600 eq_refl _)) 1000%Z _); simpl; lia.
Defined.

(** X22.  The counter stays in range.  Whatever the times of the passes,
    also when the clock goes back, [requestCount] stays between 0 and 9
    after every pass, and it is at least 1 after a pass that was
    admitted. *)
Theorem request_count_stays_in_range nows : forall l,
  (0 <= requestCount l <= RATE_LIMIT_PER_SECOND)%Z ->
  Forall (fun e : Z * bool * RateLimiter =>
            (0 <= requestCount e.2 <= RATE_LIMIT_PER_SECOND)%Z
            /\ (e.1.2 = true -> 1 <= requestCount e.2)%Z)
         (passes l nows).
Proof.
  induction nows as [|now rest IH]; intros l Hc; simpl; [constructor|].
  destruct (acquire_cases now l) as [(_ & E) | [(_ & Hfull & E) | (_ & Hfree & E)]];
    rewrite E; simpl; unfold RATE_LIMIT_PER_SECOND in *.
  - constructor; [simpl; lia|]. apply IH. simpl. lia.
  - constructor; [simpl; split; [lia | done]|]. by apply IH.
  - constructor; [simpl; lia|]. apply IH. simpl. lia.
Qed.

Lemma request_count_stays_in_range_witness :
  (0 <= requestCount (mkLimiter 0 0) <= RATE_LIMIT_PER_SECOND)%Z
  /\ Forall (fun e : Z * bool * RateLimiter =>
               (0 <= requestCount e.2 <= RATE_LIMIT_PER_SECOND)%Z
               /\ (e.1.2 = true -> 1 <= requestCount e.2)%Z)
            (passes (mkLimiter 0 0) burst).
Proof.
  assert (Hc : (0 <= requestCount (mkLimiter 0 0) <= RATE_LIMIT_PER_SECOND)%Z)
    by (unfold RATE_LIMIT_PER_SECOND; simpl; lia).
  split; [exact Hc|].
  exact (request_count_stays_in_range burst (mkLimiter 0 0) Hc).
Defined.

(** X23.  The worst second.  In every execution whose clock readings
    never go back, any span of one second, wherever it starts, sees at
    most eighteen acquisitions complete: twice the limit, which the burst
    around a reset reaches. *)
Theorem any_second_sees_at_most_two_windows t0 nows from :
  nondecreasing t0 nows ->
  (Z.of_nat (count_in from RATE_LIMIT_INTERVAL
               (acquisitions (passes (mkLimiter 0 t0) nows)))
   <= 2 * RATE_LIMIT_PER_SECOND)%Z.
Proof.
  intros Hnd.
  apply (sliding_bounded from nows (mkLimiter 0 t0) [] t0); [|done].
  unfold spanned, tallied, RATE_LIMIT_PER_SECOND, RATE_LIMIT_INTERVAL; simpl.
  repeat split; try lia. constructor.
Qed.

Lemma any_second_sees_at_most_two_windows_witness :
  nondecreasing 0 burst
  /\ count_in 999 RATE_LIMIT_INTERVAL (acquisitions (passes (mkLimiter 0 0) burst)) = 18
  /\ (Z.of_nat (count_in 999 RATE_LIMIT_INTERVAL
                  (acquisitions (passes (mkLimiter 0 0) burst)))
      <= 2 * RATE_LIMIT_PER_SECOND)%Z.
Proof.
  assert (Hnd : nondecreasing 0 burst) by (vm_compute; repeat split; discriminate).
  split; [exact Hnd|]. split; [vm_compute; reflexivity|].
  exact (any_second_sees_at_most_two_windows 0 burst 999 Hnd).
Defined.

(** ** AddressResolver: what a call asks and what it leaves alone *)

Section ResolverTheorems.
Context `{Host}.

Lemma fetch_owner_queries env ataAddress w :
  account_queries (effects (fetch_owner env ataAddress w))
  = if PublicKey_valid ataAddress then [GetAccountInfo ataAddress] else [].
Proof.
  unfold fetch_owner, new_PublicKey, await_rpc. prog_unfold.
  destruct (PublicKey_valid ataAddress); simpl; [|done].
  destruct (accountInfo env) as [[info|]|]; simpl; try done.
  destruct (Js.includes TOKEN_PROGRAM_IDS (PStr (owner info))); simpl; [|done].
  by destruct (PublicKey_of_bytes _).
Qed.

(** X24.  One call of the resolver makes one account query, for the
    address it was given, and none when [PublicKey] refuses that address;
    a call that had to sleep first does not ask twice.  The call changes
    neither the workbook, nor the set of buyers, nor the file, and it
    submits no transfer and attempts no write. *)
Theorem resolver_asks_once_and_writes_nothing n env ataAddress w :
  let r := rateLimitedGetOwnerWallet (S (S n)) env ataAddress w in
  workbook (world_after r) = workbook w
  /\ uniqueWallets (world_after r) = uniqueWallets w
  /\ file (world_after r) = file w
  /\ transfers (effects r) = [] /\ writes (effects r) = []
  /\ account_queries (effects r)
     = (if PublicKey_valid ataAddress then [GetAccountInfo ataAddress] else []).
Proof.
  intros r. subst r.
  destruct (rateLimitedGetOwnerWallet_frame (S (S n)) env ataAddress w)
    as (c & w' & effs & R & A & B & C & _ & Q).
  pose proof (quiet_no_transfers _ Q) as T.
  pose proof (quiet_no_writes _ Q) as Wr.
  rewrite R in *. unfold world_after, effects in *. simpl in *.
  do 5 (split; [done|]). clear A B C Q T Wr. revert R.
  rewrite resolver_S. prog_unfold.
  destruct (acquire (clock w) (limiter w)) as [l' [ms|]] eqn:E; simpl.
  - apply acquire_wait in E as (-> & -> & Hlt).
    rewrite resolver_S. unfold sleep. prog_unfold.
    rewrite acquire_elapsed by (unfold RATE_LIMIT_INTERVAL in *; lia). simpl.
    match goal with |- context [fetch_owner _ _ ?w1] =>
      pose proof (fetch_owner_queries env ataAddress w1) as Hq;
      destruct (fetch_owner env ataAddress w1) as [[c2 w2] e2] end.
    unfold effects in Hq. simpl in Hq. by intros [= _ _ <-].
  - match goal with |- context [fetch_owner _ _ ?w1] =>
      pose proof (fetch_owner_queries env ataAddress w1) as Hq;
      destruct (fetch_owner env ataAddress w1) as [[c2 w2] e2] end.
    unfold effects in Hq. simpl in Hq. by intros [= _ _ <-].
Qed.

End ResolverTheorems.
